(** * Hierarchical subsampling of GTDB metadata

    A shallow embedding of [workflow/scripts/subsample_gtdb.py] and the
    properties of its rule validation, rule ordering, weight assignment,
    stratified sampling and exclusion bookkeeping.

    The embedding starts from the metadata table as it stands after line 73
    of the script: the taxonomy string has been split into the seven rank
    columns, the quality filter has been applied and the accession prefixes
    are stripped.  Every row has a string in each of the seven rank columns.
    Floating point probabilities are modelled by canonical rationals. *)

From Stdlib Require Import Ascii QArith Qcanon.
From stdpp Require Import base numbers list strings sorting gmap.

(** ** Errors

    [sys.exit] carries its message; the other constructors are the Python
    exceptions that the script does not catch. *)

Inductive error : Type :=
  | SysExit (msg : string)
  | ValueError
  | KeyError
  | IndexError
  | TypeError
  | ZeroDivisionError.

Inductive result (A : Type) : Type :=
  | Ok (a : A)
  | Err (e : error).
Arguments Ok {A} a.
Arguments Err {A} e.

Global Instance result_ret : MRet result := λ A a, Ok a.
Global Instance result_bind : MBind result := λ A B f m,
  match m with
  | Ok a => f a
  | Err e => Err e
  end.

(** A [for] loop whose body may raise: the first error ends the loop. *)
Fixpoint foldM {A B : Type} (f : A → B → result A) (a : A) (l : list B)
  : result A :=
  match l with
  | [] => Ok a
  | x :: l' => a' ← f a x; foldM f a' l'
  end.

Definition is_ok {A : Type} (r : result A) : Prop :=
  match r with Ok _ => True | Err _ => False end.

(** ** Python dictionaries

    A [dict] keeps its keys in insertion order; assigning to a key that is
    present replaces the value in place, assigning to a new key appends. *)

Section dict.
Context {K V : Type} `{EqDecision K}.

Definition dict_keys (d : list (K * V)) : list K := d.*1.

Fixpoint dict_get (k : K) (d : list (K * V)) : option V :=
  match d with
  | [] => None
  | (k', v) :: d' => if decide (k' = k) then Some v else dict_get k d'
  end.

Definition dict_del (k : K) (d : list (K * V)) : list (K * V) :=
  filter (λ kv, kv.1 ≠ k) d.

Fixpoint dict_set (k : K) (v : V) (d : list (K * V)) : list (K * V) :=
  match d with
  | [] => [(k, v)]
  | (k', v') :: d' =>
      if decide (k' = k) then (k, v) :: d' else (k', v') :: dict_set k v d'
  end.
End dict.

(** ** Data model *)

Inductive Rank : Type :=
  | Domain | Phylum | Class_ | Order | Family | Genus | Species.

Global Instance Rank_eq_dec : EqDecision Rank.
Proof. solve_decision. Defined.

(** The column name of a rank. *)
Definition rank_name (r : Rank) : string :=
  match r with
  | Domain => "domain"
  | Phylum => "phylum"
  | Class_ => "class"
  | Order => "order"
  | Family => "family"
  | Genus => "genus"
  | Species => "species"
  end.

(** One row of the table.  [metadata] stands for the columns that the script
    only carries along; [sampling_prob] is [None] where the column is absent
    or holds no value. *)
Record Row : Type := mkRow {
  accession : string;
  domain : string;
  phylum : string;
  class_ : string;
  order : string;
  family : string;
  genus : string;
  species : string;
  metadata : list string;
  sampling_prob : option Qc;
}.

Global Instance Row_eq_dec : EqDecision Row.
Proof. solve_decision. Defined.

(** A data frame: its rows, and whether it has a ["sampling_prob"] column. *)
Record DataFrame : Type := mkDF {
  has_sampling_prob : bool;
  rows : list Row;
}.

Global Instance DataFrame_eq_dec : EqDecision DataFrame.
Proof. solve_decision. Defined.

Definition rank_field (level : Rank) (r : Row) : string :=
  match level with
  | Domain => domain r
  | Phylum => phylum r
  | Class_ => class_ r
  | Order => order r
  | Family => family r
  | Genus => genus r
  | Species => species r
  end.

(** [df[level].to_list()] *)
Definition column (level : Rank) (df : DataFrame) : list string :=
  rank_field level <$> rows df.

(** [df["accession"].to_list()] *)
Definition accessions (df : DataFrame) : list string :=
  accession <$> rows df.

(** [len(df)], [df.shape[0]] *)
Definition n_rows (df : DataFrame) : nat := length (rows df).

(** ** Taxon resolution (lines 20-36) *)

Fixpoint check_taxa_name (taxa : string) (taxa_levels : list Rank)
    (df : DataFrame) : bool :=
  match taxa_levels with
  | [] => false
  | level :: levels' =>
      if decide (taxa ∈ column level df) then true
      else check_taxa_name taxa levels' df
  end.

(** [enumerate] is threaded as the running index [i]. *)
Fixpoint get_taxa_level_index_from (i : nat) (taxa : string)
    (taxa_levels : list Rank) (df : DataFrame) : option nat :=
  match taxa_levels with
  | [] => None
  | level :: levels' =>
      if decide (taxa ∈ column level df) then Some i
      else get_taxa_level_index_from (S i) taxa levels' df
  end.

Definition get_taxa_level_index (taxa : string) (taxa_levels : list Rank)
    (df : DataFrame) : option nat :=
  get_taxa_level_index_from 0 taxa taxa_levels df.

(** Line 76. *)
Definition taxa_levels : list Rank :=
  [Domain; Phylum; Class_; Order; Family; Genus; Species].

(** [taxa_levels.index(name)]: the position of a rank name, [ValueError] when
    the name is no rank. *)
Fixpoint index_from (i : nat) (name : string) (levels : list Rank)
  : option nat :=
  match levels with
  | [] => None
  | level :: levels' =>
      if decide (rank_name level = name) then Some i
      else index_from (S i) name levels'
  end.

Definition taxa_levels_index (name : string) : result nat :=
  match index_from 0 name taxa_levels with
  | Some i => Ok i
  | None => Err ValueError
  end.

(** ** The sampling scheme (lines 41-43, 79-83)

    The YAML document maps a taxon name to its parameters; [n_taxa] is the
    value of the key ["taxa"], the number of records to keep per group, a
    non-negative integer. *)

Record Params : Type := mkParams {
  sampling_level : string;
  n_taxa : nat;
}.

Global Instance Params_eq_dec : EqDecision Params.
Proof. solve_decision. Defined.

(** Lines 79-83: the ["all"] key is replaced by one entry per domain. *)
Definition expand_all (sampling_scheme : list (string * Params))
  : list (string * Params) :=
  match dict_get "all" sampling_scheme with
  | Some sampling_parameters =>
      dict_set "Archaea" sampling_parameters
        (dict_set "Bacteria" sampling_parameters
           (dict_del "all" sampling_scheme))
  | None => sampling_scheme
  end.

(** ** Rule validation and bucketing (lines 85-102)

    A stored rule is the list [[taxa, sampling_level, n_taxa]]. *)

Definition Sampling : Type := string * string * nat.

Definition msg_higher_level : string :=
  "Can't sample from a higher taxonomic level".

Definition msg_not_present (taxa : string) : string :=
  (taxa ++ " is not present in GTDB")%string.

(** The body of the loop of line 85 for the key [taxa]. *)
Definition validate_rule (df : DataFrame)
    (sampling_scheme : list (string * Params))
    (sampling_order : list (nat * list Sampling)) (taxa : string)
  : result (list (nat * list Sampling)) :=
  if check_taxa_name taxa taxa_levels df then
    match dict_get taxa sampling_scheme with
    | None => Err KeyError
    | Some params =>
        let sampling_level := sampling_level params in
        let n_taxa := n_taxa params in
        let taxa_level_index := get_taxa_level_index taxa taxa_levels df in
        sampling_level_index ← taxa_levels_index sampling_level;
        match taxa_level_index with
        | None => Err TypeError
        | Some taxa_level_index =>
            if decide (taxa_level_index ≤ sampling_level_index)%nat then
              match dict_get taxa_level_index sampling_order with
              | Some bucket =>
                  Ok (dict_set taxa_level_index
                        (bucket ++ [(taxa, sampling_level, n_taxa)])
                        sampling_order)
              | None =>
                  Ok (dict_set taxa_level_index
                        [(taxa, sampling_level, n_taxa)] sampling_order)
              end
            else Err (SysExit msg_higher_level)
        end
    end
  else Err (SysExit (msg_not_present taxa)).

Definition build_sampling_order (df : DataFrame)
    (sampling_scheme : list (string * Params))
  : result (list (nat * list Sampling)) :=
  foldM (validate_rule df sampling_scheme) [] (dict_keys sampling_scheme).

(** ** Reordering (lines 106-108) *)

(** [sorted(keys, reverse=True)] *)
Definition sorted_reverse (keys : list nat) : list nat :=
  merge_sort (flip Nat.le) keys.

Definition reorder (sampling_order : list (nat * list Sampling))
  : result (list (nat * list Sampling)) :=
  foldM (λ acc key,
           match dict_get key sampling_order with
           | Some bucket => Ok (dict_set key bucket acc)
           | None => Err KeyError
           end)
        [] (sorted_reverse (dict_keys sampling_order)).

(** The rules in the order in which the two nested loops of lines 111-113
    visit them, each with the key of its bucket. *)
Definition processing_sequence (sampling_order : list (nat * list Sampling))
  : list (nat * Sampling) :=
  key ← dict_keys sampling_order;
  match dict_get key sampling_order with
  | Some bucket => pair key <$> bucket
  | None => []
  end.

(** ** Data frame operations *)

(** [df[df[level] == value]] *)
Definition select_eq (level : Rank) (value : string) (df : DataFrame)
  : DataFrame :=
  mkDF (has_sampling_prob df)
       (filter (λ r, rank_field level r = value) (rows df)).

(** [df[~df["accession"].isin(entries)]] *)
Definition drop_accessions (entries : list string) (df : DataFrame)
  : DataFrame :=
  mkDF (has_sampling_prob df)
       (filter (λ r, accession r ∉ entries) (rows df)).

(** [df.groupby(level)]: one frame per distinct value, by ascending key, the
    rows of a group in their order in [df]. *)
Definition group_keys (values : list string) : list string :=
  merge_sort String.le (remove_dups values).

Definition groupby (level : Rank) (df : DataFrame)
  : list (string * DataFrame) :=
  (λ key, (key, select_eq level key df)) <$> group_keys (column level df).

(** [df.groupby(name)] with the column given by name. *)
Definition column_named (name : string) : result Rank :=
  match index_from 0 name taxa_levels with
  | Some i =>
      match taxa_levels !! i with
      | Some level => Ok level
      | None => Err KeyError
      end
  | None => Err KeyError
  end.

(** [pd.concat(dfs)]: the columns are the union of the columns. *)
Definition pd_concat (dfs : list DataFrame) : result DataFrame :=
  match dfs with
  | [] => Err ValueError
  | _ => Ok (mkDF (existsb has_sampling_prob dfs) (concat (rows <$> dfs)))
  end.

(** [df.drop_duplicates()]: the first of equal rows is kept. *)
Fixpoint drop_duplicate_rows (l : list Row) : list Row :=
  match l with
  | [] => []
  | r :: l' => r :: filter (λ r', r' ≠ r) (drop_duplicate_rows l')
  end.

Definition drop_duplicates (df : DataFrame) : DataFrame :=
  mkDF (has_sampling_prob df) (drop_duplicate_rows (rows df)).

(** [df["sampling_prob"] = p] *)
Definition with_sampling_prob (p : Qc) (r : Row) : Row :=
  mkRow (accession r) (domain r) (phylum r) (class_ r) (order r) (family r)
        (genus r) (species r) (metadata r) (Some p).

Definition set_sampling_prob (p : Qc) (df : DataFrame) : DataFrame :=
  mkDF true (with_sampling_prob p <$> rows df).

(** [a / n] for an integer [n]. *)
Definition py_div (a : Qc) (n : nat) : result Qc :=
  if decide (n = 0) then Err ZeroDivisionError
  else Ok (a / Qc_of_Z (Z.of_nat n))%Qc.

(** ** Weight assignment (lines 130-143) *)

Definition n_distinct (values : list string) : nat :=
  size (list_to_set values : gset string).

Definition weigh_unit (prob_units : Qc) (dfs : list DataFrame)
    (group : string * DataFrame) : result (list DataFrame) :=
  let taxa_level_df := group.2 in
  let n_base_level_taxa := n_rows taxa_level_df in
  prob_base_level_taxa ← py_div prob_units n_base_level_taxa;
  Ok (dfs ++ [set_sampling_prob prob_base_level_taxa taxa_level_df]).

Definition assign_weights (sampling_level : string) (sampling_df : DataFrame)
  : result DataFrame :=
  index ← taxa_levels_index sampling_level;
  let index := index + 1 in
  base_level ← match taxa_levels !! index with
               | Some level => Ok level
               | None => Err IndexError
               end;
  let n_units := n_distinct (column base_level sampling_df) in
  prob_units ← py_div 1%Qc n_units;
  dfs ← foldM (weigh_unit prob_units) [] (groupby base_level sampling_df);
  pd_concat dfs.

(** ** Stratified sampling and the main loop (lines 109-164)

    [DataFrame.sample] draws from the generator of the runtime.  Its state is
    threaded through the run; [sample rng n weighted l] is the draw of [n] of
    the rows [l], with [weights="sampling_prob"] when [weighted] holds, and
    the state left behind. *)

Section sampling.
Context {RNG : Type}.
Variable sample : RNG → nat → bool → list Row → list Row * RNG.

Record State : Type := mkState {
  sampled_dfs : list DataFrame;
  used_data : list DataFrame;
  rng : RNG;
}.

(** Lines 120-126: the records of the taxon that no earlier rule has seen. *)
Definition candidate_pool (df : DataFrame) (used_data : list DataFrame)
    (taxa_level : Rank) (taxa : string) : DataFrame :=
  let sampling_df := select_eq taxa_level taxa df in
  let exclude_entries := used_df ← used_data; accessions used_df in
  drop_accessions exclude_entries sampling_df.

(** Lines 150-158: the selection from one group. *)
Definition sample_group (n_taxa : nat) (acc : list DataFrame * RNG)
    (group : string * DataFrame) : list DataFrame * RNG :=
  let taxa_level_df := group.2 in
  if decide (n_taxa < n_rows taxa_level_df)%nat then
    if has_sampling_prob taxa_level_df then
      let drawn := sample acc.2 n_taxa true (rows taxa_level_df) in
      (acc.1 ++ [mkDF (has_sampling_prob taxa_level_df) drawn.1], drawn.2)
    else
      let drawn := sample acc.2 n_taxa false (rows taxa_level_df) in
      (acc.1 ++ [mkDF (has_sampling_prob taxa_level_df) drawn.1], drawn.2)
  else (acc.1 ++ [taxa_level_df], acc.2).

(** Lines 114-160: one rule. *)
Definition sample_rule (df : DataFrame) (taxa_level : Rank) (st : State)
    (sampling : Sampling) : result State :=
  let taxa := sampling.1.1 in
  let sampling_level := sampling.1.2 in
  let n_taxa := sampling.2 in
  let sampling_df := candidate_pool df (used_data st) taxa_level taxa in
  sampling_df ← (if decide (sampling_level ≠ "species")
                 then assign_weights sampling_level sampling_df
                 else Ok sampling_df);
  level ← column_named sampling_level;
  let acc := foldl (sample_group n_taxa) (sampled_dfs st, rng st)
                   (groupby level sampling_df) in
  Ok (mkState acc.1 (used_data st ++ [sampling_df]) acc.2).

(** Lines 111-160: the two nested loops. *)
Definition sample_bucket (df : DataFrame)
    (sampling_order : list (nat * list Sampling)) (st : State)
    (taxa_level_index : nat) : result State :=
  taxa_level ← match taxa_levels !! taxa_level_index with
               | Some level => Ok level
               | None => Err IndexError
               end;
  bucket ← match dict_get taxa_level_index sampling_order with
           | Some bucket => Ok bucket
           | None => Err KeyError
           end;
  foldM (sample_rule df taxa_level) st bucket.

Definition sample_all (df : DataFrame)
    (sampling_order : list (nat * list Sampling)) (st : State)
  : result State :=
  foldM (sample_bucket df sampling_order) st (dict_keys sampling_order).

(** The same loops over the flattened sequence of rules. *)
Definition sample_step (df : DataFrame) (st : State)
    (step : nat * Sampling) : result State :=
  taxa_level ← match taxa_levels !! step.1 with
               | Some level => Ok level
               | None => Err IndexError
               end;
  sample_rule df taxa_level st step.2.

(** Lines 76-164: the script from the table and the parsed scheme to the
    table that is written out. *)
Definition subsample_gtdb (df : DataFrame)
    (sampling_scheme : list (string * Params)) (seed : RNG)
  : result DataFrame :=
  let sampling_scheme := expand_all sampling_scheme in
  sampling_order ← build_sampling_order df sampling_scheme;
  sampling_order ← reorder sampling_order;
  st ← sample_all df sampling_order (mkState [] [] seed);
  sampled_df ← pd_concat (sampled_dfs st);
  Ok (drop_duplicates sampled_df).
End sampling.

Arguments State : clear implicits.
Arguments mkState {RNG} _ _ _.

(** A sampler that draws the leading rows, with no state. *)
Definition sample_head (rng : unit) (n : nat) (weighted : bool)
    (l : list Row) : list Row * unit :=
  (take n l, rng).

(** ** Predicates used in the statements *)

(** The rule [r] is stored in the bucket of the key [k]. *)
Definition in_order (sampling_order : list (nat * list Sampling)) (k : nat)
    (r : Sampling) : Prop :=
  ∃ bucket, dict_get k sampling_order = Some bucket ∧ r ∈ bucket.

(** The stored form of the rule that a scheme has for a taxon. *)
Definition rule_of (taxa : string) (params : Params) : Sampling :=
  (taxa, sampling_level params, n_taxa params).

(** What the validation loop keeps true of the buckets: the keys are
    distinct, every key is a position of [taxa_levels], and every rule sits
    under the position resolved for its taxon. *)
Definition buckets_ok (df : DataFrame) (so : list (nat * list Sampling))
  : Prop :=
  NoDup (dict_keys so) ∧
  (∀ k, k ∈ dict_keys so → is_Some (taxa_levels !! k)) ∧
  (∀ k r, in_order so k r →
     get_taxa_level_index r.1.1 taxa_levels df = Some k).

(** The resolution as the specification words it: the rank columns are
    scanned from species up to domain, and the first rank whose column holds
    the name is returned, as its position in [taxa_levels]. *)
Definition resolve_finest_first (taxa : string) (df : DataFrame)
  : option nat :=
  (λ i, length taxa_levels - 1 - i) <$>
    get_taxa_level_index taxa (reverse taxa_levels) df.

(** The sum of the ["sampling_prob"] column over some rows. *)
Definition prob_sum (l : list Row) : Qc :=
  foldr (λ r acc, default 0 (sampling_prob r) + acc)%Qc 0%Qc l.

(** The weight that lines 134-141 give to a record: the share [1 / n_units]
    of its child unit, divided by the number of records of the unit. *)
Definition unit_weight (base_level : Rank) (sampling_df : DataFrame)
    (r : Row) : Qc :=
  (1 / Qc_of_Z (Z.of_nat (n_distinct (column base_level sampling_df)))
     / Qc_of_Z (Z.of_nat
         (n_rows (select_eq base_level (rank_field base_level r)
                            sampling_df))))%Qc.

(** The rows that the loop of lines 138-143 and the [pd.concat] of line 143
    produce: group after group, each row with the weight of its unit. *)
Definition weighted_rows (base_level : Rank) (sampling_df : DataFrame)
  : list Row :=
  g ← groupby base_level sampling_df;
  with_sampling_prob
    (1 / Qc_of_Z (Z.of_nat (n_distinct (column base_level sampling_df)))
       / Qc_of_Z (Z.of_nat (n_rows g.2)))%Qc <$> rows g.2.

(** The contract of [DataFrame.sample] with [replace=False]: a draw of [n]
    rows out of at least [n] returns [n] of the rows, none of them twice. *)
Definition without_replacement {RNG : Type}
    (sample : RNG → nat → bool → list Row → list Row * RNG) : Prop :=
  ∀ rng n weighted l, n ≤ length l →
    length (sample rng n weighted l).1 = n ∧ (sample rng n weighted l).1 ⊆+ l.

(** What lines 150-158 select from the group [g] for the quota [n_taxa]. *)
Definition group_selected {RNG : Type}
    (sample : RNG → nat → bool → list Row → list Row * RNG)
    (n_taxa : nat) (g sel : DataFrame) : Prop :=
  has_sampling_prob sel = has_sampling_prob g ∧
  n_rows sel ≤ n_taxa ∧
  (n_rows g ≤ n_taxa → sel = g) ∧
  (n_taxa < n_rows g →
     n_rows sel = n_taxa ∧ rows sel ⊆+ rows g ∧
     ∃ rng, rows sel
            = (sample rng n_taxa (has_sampling_prob g) (rows g)).1).

(** The row [r] is a row of the table, up to its ["sampling_prob"]. *)
Definition from_table (df : DataFrame) (r : Row) : Prop :=
  ∃ r0, r0 ∈ rows df ∧ (r = r0 ∨ ∃ p, r = with_sampling_prob p r0).

(** What the main loop keeps true of [sampled_dfs] once the rules
    [processed] are done: a selection has the weight column only if a rule
    with a [sampling_level] other than species was processed, every such rule
    has left a selection with the column, and every selected row is a row of
    the table up to its weight. *)
Definition selections_ok (df : DataFrame) (processed : list Sampling)
    (sels : list DataFrame) : Prop :=
  (∀ sel, sel ∈ sels → has_sampling_prob sel = true →
     ∃ s, s ∈ processed ∧ s.1.2 ≠ "species") ∧
  (∀ s, s ∈ processed → s.1.2 ≠ "species" →
     ∃ sel, sel ∈ sels ∧ has_sampling_prob sel = true) ∧
  (∀ sel r, sel ∈ sels → r ∈ rows sel → from_table df r).

(** ** Tables and schemes used in the examples *)

(** A row with no other columns and no weight. *)
Definition row (acc d p c o f g s : string) : Row :=
  mkRow acc d p c o f g s [] None.

Definition ecoli1 : Row :=
  row "GCF_000005845.2" "Bacteria" "Pseudomonadota" "Gammaproteobacteria"
      "Enterobacterales" "Enterobacteriaceae" "Escherichia"
      "Escherichia coli".

Definition ecoli2 : Row :=
  row "GCF_000008865.2" "Bacteria" "Pseudomonadota" "Gammaproteobacteria"
      "Enterobacterales" "Enterobacteriaceae" "Escherichia"
      "Escherichia coli".

Definition efergusonii : Row :=
  row "GCF_000026225.1" "Bacteria" "Pseudomonadota" "Gammaproteobacteria"
      "Enterobacterales" "Enterobacteriaceae" "Escherichia"
      "Escherichia fergusonii".

Definition msmithii : Row :=
  row "GCF_000016525.1" "Archaea" "Methanobacteriota" "Methanobacteria"
      "Methanobacteriales" "Methanobacteriaceae" "Methanobrevibacter"
      "Methanobrevibacter smithii".

Definition gtdb_small : DataFrame :=
  mkDF false [ecoli1; ecoli2; efergusonii; msmithii].

(** A table in which a phylum and one of its classes have the same name, as
    in early releases of the taxonomy. *)
Definition gtdb_actino : DataFrame :=
  mkDF false
    [row "GCF_000009765.2" "Bacteria" "Actinobacteria" "Actinobacteria"
         "Streptomycetales" "Streptomycetaceae" "Streptomyces"
         "Streptomyces avermitilis"].

(** A scheme with the wildcard and a rule of its own for one domain. *)
Definition scheme_with_bacteria : list (string * Params) :=
  [("Bacteria", mkParams "genus" 5); ("all", mkParams "domain" 2)].

(** A rule that names a genus and samples within each of its species. *)
Definition scheme_genus_by_species : list (string * Params) :=
  [("Escherichia", mkParams "species" 1)].

(** A rule that names a species and asks for sampling per genus. *)
Definition scheme_species_by_genus : list (string * Params) :=
  [("Escherichia coli", mkParams "genus" 1)].

(** A rule that samples a genus as one group, weighted by species. *)
Definition scheme_genus_by_genus : list (string * Params) :=
  [("Escherichia", mkParams "genus" 2)].

(** The same rule with a quota of zero. *)
Definition scheme_zero_quota : list (string * Params) :=
  [("Escherichia", mkParams "genus" 0)].

(** Rules for both species of a genus, and a rule for what is left of the
    genus, sampled per species. *)
Definition scheme_species_then_genus : list (string * Params) :=
  [("Escherichia coli", mkParams "species" 1);
   ("Escherichia fergusonii", mkParams "species" 1);
   ("Escherichia", mkParams "species" 1)].

(** A rule for one genus, and the wildcard for what is left of each
    domain. *)
Definition scheme_genus_then_domains : list (string * Params) :=
  [("Escherichia", mkParams "species" 1); ("all", mkParams "domain" 1)].

(** A table with no record of the domain Archaea. *)
Definition gtdb_bacteria : DataFrame :=
  mkDF false [ecoli1; ecoli2; efergusonii].

(** A rule for a taxon that the table does not have. *)
Definition scheme_unknown_taxon : list (string * Params) :=
  [("Escherichia", mkParams "species" 1);
   ("Salmonella", mkParams "species" 1)].

(** A rule whose [sampling_level] is no rank name, after a rule that is in
    order. *)
Definition scheme_unknown_level : list (string * Params) :=
  [("Escherichia", mkParams "species" 1);
   ("Bacteria", mkParams "kingdom" 1)].

(** The wildcard alone. *)
Definition scheme_all : list (string * Params) :=
  [("all", mkParams "domain" 1)].

(** Lines 76-160 of the script: the selections that the rules leave in
    [sampled_dfs], before they are concatenated. *)
Definition run_selections {RNG : Type}
    (sample : RNG → nat → bool → list Row → list Row * RNG)
    (df : DataFrame) (sampling_scheme : list (string * Params)) (seed : RNG)
  : result (list DataFrame) :=
  sampling_order ← build_sampling_order df (expand_all sampling_scheme);
  sampling_order ← reorder sampling_order;
  st ← sample_all sample df sampling_order (mkState [] [] seed);
  Ok (sampled_dfs st).

(** The record [r] belongs to the taxon of the rule [step], at the rank
    under which the rule is stored. *)
Definition step_matches (step : nat * Sampling) (r : Row) : Prop :=
  match taxa_levels !! step.1 with
  | Some level => rank_field level r = step.2.1.1
  | None => False
  end.

Global Instance step_matches_dec step r : Decision (step_matches step r).
Proof. unfold step_matches. destruct (taxa_levels !! step.1); apply _. Defined.

(** ** Loading and filtering the table (lines 9-17, 45-73)

    The raw table as [read_csv] returns it: the columns that the script
    reads, and [other_columns] for the rest.  The two quality columns hold
    numbers. *)

Record RawRow : Type := mkRaw {
  raw_accession : string;
  gtdb_taxonomy : string;
  checkm_completeness : Qc;
  checkm_contamination : Qc;
  gtdb_representative : string;
  other_columns : list string;
}.

(** The options of lines 13-15. *)
Record Args : Type := mkArgs {
  arg_completeness : Qc;
  arg_contamination : Qc;
  arg_gtdb_representative : bool;
}.

(** The defaults: [--completeness 0], [--contamination 100], no
    [--gtdb-representative]. *)
Definition default_args : Args :=
  mkArgs (Qc_of_Z 0) (Qc_of_Z 100) false.

(** A row after line 57: the raw row and the cells of the seven new columns;
    a cell is [None] where the taxonomy string has too few fields. *)
Record ParsedRow : Type := mkParsed {
  source : RawRow;
  rank_cells : list (option string);
}.

(** [s.split(sep)] for a separator of one character. *)
Fixpoint str_split (sep : Ascii.ascii) (s : string) : list string :=
  match s with
  | EmptyString => [EmptyString]
  | String c s' =>
      if decide (c = sep) then EmptyString :: str_split sep s'
      else match str_split sep s' with
           | piece :: pieces => String c piece :: pieces
           | [] => [String c EmptyString]
           end
  end.

(** [sep.join(pieces)] *)
Fixpoint str_join (sep : Ascii.ascii) (pieces : list string) : string :=
  match pieces with
  | [] => EmptyString
  | [piece] => piece
  | piece :: pieces' => (piece ++ String sep (str_join sep pieces'))%string
  end.

(** [old in s] *)
Fixpoint str_in (old s : string) : bool :=
  String.prefix old s ||
  match s with
  | EmptyString => false
  | String _ s' => str_in old s'
  end.

(** [s.replace(old, "")]: the occurrences of [old] are removed from left to
    right; [skip] counts the characters of an occurrence still to pass. *)
Fixpoint str_remove_from (skip : nat) (old s : string) : string :=
  match s with
  | EmptyString => EmptyString
  | String c s' =>
      match skip with
      | S skip' => str_remove_from skip' old s'
      | O =>
          if String.prefix old s
          then str_remove_from (String.length old - 1) old s'
          else String c (str_remove_from 0 old s')
      end
  end.

Definition str_remove (old s : string) : string :=
  if decide (old = EmptyString) then s else str_remove_from 0 old s.

(** [col.str.split(";", expand=True)]: one column per field, as many columns
    as the longest row has fields, [None] where a row has fewer. *)
Definition split_expand (col : list string) : list (list (option string)) :=
  let pieces := str_split ";"%char <$> col in
  let width := max_list (length <$> pieces) in
  (λ ps, (Some <$> ps) ++ replicate (width - length ps) None) <$> pieces.

(** The number of columns of an expanded frame. *)
Definition n_columns (cells : list (list (option string))) : nat :=
  max_list (length <$> cells).

(** The prefixes that lines 51-57 remove, by column. *)
Definition rank_prefixes : list string :=
  ["d__"; "p__"; "c__"; "o__"; "f__"; "g__"; "s__"].

(** Lines 47-57: the assignment of the expanded frame to the seven rank
    columns raises when the frame has another number of columns; then each
    column loses its prefix. *)
Definition parse_taxonomy (raw : list RawRow) : result (list ParsedRow) :=
  let expanded := split_expand (gtdb_taxonomy <$> raw) in
  if decide (n_columns expanded = length taxa_levels) then
    Ok (zip_with
          (λ r cells,
             mkParsed r (zip_with (λ old cell, str_remove old <$> cell)
                                  rank_prefixes cells))
          raw expanded)
  else Err ValueError.

(** Lines 61-68. *)
Definition filter_quality (args : Args) (rows : list ParsedRow)
  : list ParsedRow :=
  let rows :=
    filter (λ r, (checkm_contamination (source r) ≤ arg_contamination args)%Qc
                 ∧ (arg_completeness args ≤ checkm_completeness (source r))%Qc)
           rows in
  if arg_gtdb_representative args
  then filter (λ r, gtdb_representative (source r) = "t") rows
  else rows.

(** Lines 72-73. *)
Definition strip_accession (accession : string) : string :=
  str_remove "RS_" (str_remove "GB_" accession).

Definition strip_row_accession (r : ParsedRow) : ParsedRow :=
  mkParsed
    (mkRaw (strip_accession (raw_accession (source r)))
           (gtdb_taxonomy (source r)) (checkm_completeness (source r))
           (checkm_contamination (source r))
           (gtdb_representative (source r)) (other_columns (source r)))
    (rank_cells r).

(** Lines 46-73: from the raw table to the table that is sampled. *)
Definition load_table (args : Args) (raw : list RawRow)
  : result (list ParsedRow) :=
  parsed ← parse_taxonomy raw;
  Ok (strip_row_accession <$> filter_quality args parsed).

(** The taxonomy string of a lineage. *)
Definition taxonomy_string (names : list string) : string :=
  str_join ";"%char (zip_with String.append rank_prefixes names).

(** Raw rows used in the examples. *)
Definition raw_ecoli : RawRow :=
  mkRaw "RS_GCF_000005845.2"
        "d__Bacteria;p__Pseudomonadota;c__Gammaproteobacteria;o__Enterobacterales;f__Enterobacteriaceae;g__Escherichia;s__Escherichia coli"
        (Qc_of_Z 99) (Qc_of_Z 1) "t" [].

Definition raw_msmithii : RawRow :=
  mkRaw "GB_GCA_000016525.1"
        "d__Archaea;p__Methanobacteriota;c__Methanobacteria;o__Methanobacteriales;f__Methanobacteriaceae;g__Methanobrevibacter;s__Methanobrevibacter smithii"
        (Qc_of_Z 90) (Qc_of_Z 6) "f" [].

(** A row whose lineage stops at the genus. *)
Definition raw_short : RawRow :=
  mkRaw "GB_GCA_000000001.1"
        "d__Bacteria;p__Pseudomonadota;c__Gammaproteobacteria;o__Enterobacterales;f__Enterobacteriaceae;g__Escherichia"
        (Qc_of_Z 50) (Qc_of_Z 20) "f" [].

(** A row with a field too many, and of poor quality. *)
Definition raw_long : RawRow :=
  mkRaw "GB_GCA_000000002.1"
        "d__Bacteria;p__Pseudomonadota;c__Gammaproteobacteria;o__Enterobacterales;f__Enterobacteriaceae;g__Escherichia;s__Escherichia coli;strain K-12"
        (Qc_of_Z 10) (Qc_of_Z 90) "f" [].

(** The number of fields of the taxonomy string of a row. *)
Definition n_fields (r : RawRow) : nat :=
  length (str_split ";"%char (gtdb_taxonomy r)).

(** Seven names that can be told apart in a taxonomy string: none holds the
    separator, and none holds the prefix of its own rank. *)
Definition lineage (names : list string) : Prop :=
  Forall (λ name, ";"%char ∉ String.list_ascii_of_string name) names ∧
  Forall2 (λ old name, str_in old name = false) rank_prefixes names.

(** The row passes the tests of lines 61-68 for the options [args]. *)
Definition passes (args : Args) (r : ParsedRow) : Prop :=
  (checkm_contamination (source r) ≤ arg_contamination args)%Qc ∧
  (arg_completeness args ≤ checkm_completeness (source r))%Qc ∧
  (arg_gtdb_representative args = true →
   gtdb_representative (source r) = "t").

Global Instance passes_dec args r : Decision (passes args r).
Proof. unfold passes. apply _. Defined.

(** The options [strict] ask for at least what the options [args] ask for. *)
Definition at_least_as_strict (strict args : Args) : Prop :=
  (arg_contamination strict ≤ arg_contamination args)%Qc ∧
  (arg_completeness args ≤ arg_completeness strict)%Qc ∧
  (arg_gtdb_representative args = true →
   arg_gtdb_representative strict = true).

(** Options that ask for more than the defaults. *)
Definition strict_args : Args := mkArgs (Qc_of_Z 95) (Qc_of_Z 5) true.

(** * Properties *)

(** ** The error monad and the loops *)

Lemma bind_Ok {A B : Type} (m : result A) (f : A → result B) (b : B) :
  m ≫= f = Ok b ↔ ∃ a, m = Ok a ∧ f a = Ok b.
Proof.
  destruct m as [a|e]; simpl; split.
  - eauto.
  - by intros (a' & [= ->] & ?).
  - done.
  - by intros (? & ? & ?).
Qed.

Lemma foldM_app {A B : Type} (f : A → B → result A) a l1 l2 :
  foldM f a (l1 ++ l2) = a' ← foldM f a l1; foldM f a' l2.
Proof.
  revert a. induction l1 as [|x l1 IH]; intros a; simpl; [done|].
  destruct (f a x) as [a'|e]; simpl; [apply IH|done].
Qed.

(** A loop invariant kept by every step that returns holds at the end. *)
Lemma foldM_invariant {A B : Type} (P : A → Prop) (f : A → B → result A) l :
  (∀ a x a', x ∈ l → P a → f a x = Ok a' → P a') →
  ∀ a a', P a → foldM f a l = Ok a' → P a'.
Proof.
  induction l as [|x l IH]; intros Hstep a a' Ha; simpl.
  - by intros [= <-].
  - intros (a1 & Hx & Hrest)%bind_Ok.
    eapply IH; [|by eapply (Hstep a x a1); [left|..]|done].
    intros b y b' Hy. apply Hstep. by right.
Qed.

(** ** Taxon resolution *)

Lemma check_taxa_name_true taxa levels df :
  check_taxa_name taxa levels df = true ↔
  ∃ level, level ∈ levels ∧ taxa ∈ column level df.
Proof.
  induction levels as [|l levels IH]; simpl.
  - split; [done|]. by intros (? & ?%elem_of_nil & _).
  - case_decide as Hl.
    + split; [|done]. intros _. exists l. split; [left|done].
    + rewrite IH. split.
      * intros (level & ? & ?). exists level. split; [by right|done].
      * intros (level & [->|?]%elem_of_cons & ?); [done|eauto].
Qed.

Lemma get_taxa_level_index_from_Some i taxa levels df k :
  get_taxa_level_index_from i taxa levels df = Some k →
  ∃ j level, k = i + j ∧ levels !! j = Some level ∧
    taxa ∈ column level df ∧
    ∀ j' level', j' < j → levels !! j' = Some level' →
      taxa ∉ column level' df.
Proof.
  revert i. induction levels as [|l levels IH]; intros i; simpl; [done|].
  case_decide as Hl.
  - intros [= <-]. exists 0, l. repeat split; [lia|done|lia].
  - intros (j & level & -> & Hj & Hin & Hleast)%IH.
    exists (S j), level. repeat split; [lia|done|done|].
    intros [|j'] level' Hlt; simpl.
    + by intros [= <-].
    + apply Hleast. lia.
Qed.

Lemma get_taxa_level_index_from_None i taxa levels df :
  get_taxa_level_index_from i taxa levels df = None ↔
  ∀ level, level ∈ levels → taxa ∉ column level df.
Proof.
  revert i. induction levels as [|l levels IH]; intros i; simpl.
  - split; [|done]. by intros _ ? ?%elem_of_nil.
  - case_decide as Hl.
    + split; [done|]. intros Hall. destruct (Hall l); [left|done].
    + rewrite IH. split.
      * intros Hall level [->|?]%elem_of_cons; [done|by apply Hall].
      * intros Hall level ?. apply Hall. by right.
Qed.

Lemma check_taxa_name_is_Some taxa levels df :
  check_taxa_name taxa levels df = true ↔
  is_Some (get_taxa_level_index taxa levels df).
Proof.
  unfold get_taxa_level_index. rewrite check_taxa_name_true. split.
  - intros (level & Hlevel & Hin).
    destruct (get_taxa_level_index_from 0 taxa levels df) eqn:Hget; [done|].
    rewrite get_taxa_level_index_from_None in Hget.
    by destruct (Hget level).
  - intros [k (j & level & _ & Hj & Hin & _)%get_taxa_level_index_from_Some].
    exists level. split; [|done]. by eapply list_elem_of_lookup_2.
Qed.

Lemma foldM_Err {A B : Type} (f : A → B → result A) l a e :
  foldM f a l = Err e → ∃ a' x, x ∈ l ∧ f a' x = Err e.
Proof.
  revert a. induction l as [|x l IH]; intros a; simpl; [done|].
  destruct (f a x) as [a1|e1] eqn:Hx; simpl.
  - intros (a' & y & ? & ?)%IH. exists a', y. split; [by right|done].
  - intros [= ->]. exists a, x. split; [left|done].
Qed.

Lemma validate_rule_no_TypeError df scheme so taxa :
  validate_rule df scheme so taxa ≠ Err TypeError.
Proof.
  unfold validate_rule.
  destruct (check_taxa_name taxa taxa_levels df) eqn:Hcheck; [|done].
  apply check_taxa_name_is_Some in Hcheck as [k ->].
  destruct (dict_get taxa scheme) as [params|]; [|done].
  unfold taxa_levels_index.
  destruct (index_from 0 (sampling_level params) taxa_levels); simpl; [|done].
  case_decide; [|done]. by destruct (dict_get k so).
Qed.

(** C10: [check_taxa_name] answers [True] exactly when
    [get_taxa_level_index] returns an index; that index is the least position
    of [taxa_levels] whose column holds the name; and the validation loop,
    which asks for the index only under the guard, never compares or buckets
    a missing index. *)
Theorem check_taxa_name_guards_index (taxa : string) (levels : list Rank)
    (df : DataFrame) :
  (check_taxa_name taxa levels df = true ↔
   ∃ i, get_taxa_level_index taxa levels df = Some i) ∧
  (∀ i, get_taxa_level_index taxa levels df = Some i →
     (∃ level, levels !! i = Some level ∧ taxa ∈ column level df) ∧
     (∀ j level, j < i → levels !! j = Some level →
        taxa ∉ column level df)) ∧
  (∀ scheme so, validate_rule df scheme so taxa ≠ Err TypeError) ∧
  (∀ scheme, build_sampling_order df scheme ≠ Err TypeError).
Proof.
  split; [apply check_taxa_name_is_Some|]. split; [|split].
  - intros i (j & level & -> & Hj & Hin & Hleast)%get_taxa_level_index_from_Some.
    split; [by exists level|done].
  - intros scheme so. apply validate_rule_no_TypeError.
  - intros scheme (so & t & _ & Hstep)%foldM_Err.
    by apply validate_rule_no_TypeError in Hstep.
Qed.

Lemma check_taxa_name_guards_index_witness :
  ∃ i, get_taxa_level_index "Escherichia" taxa_levels gtdb_small = Some i.
Proof.
  destruct (check_taxa_name_guards_index "Escherichia" taxa_levels gtdb_small)
    as [[Hguard _] _].
  apply Hguard. reflexivity.
Defined.

(** C6, as the code has it: a name that occurs in some rank column resolves
    to the first matching rank in the order of [taxa_levels], domain first
    and species last; a name present at two ranks resolves to the coarser
    one. *)
Theorem resolution_coarsest_first (taxa : string) (df : DataFrame)
    (i : nat) (level : Rank) :
  taxa_levels !! i = Some level →
  taxa ∈ column level df →
  ∃ k level', get_taxa_level_index taxa taxa_levels df = Some k ∧
    k ≤ i ∧ taxa_levels !! k = Some level' ∧ taxa ∈ column level' df ∧
    ∀ j l, j < k → taxa_levels !! j = Some l → taxa ∉ column l df.
Proof.
  intros Hi Hin.
  destruct (get_taxa_level_index taxa taxa_levels df) as [k|] eqn:Hget.
  - apply get_taxa_level_index_from_Some in Hget
      as (j & level' & -> & Hj & Hin' & Hleast).
    exists j, level'. repeat split; [|done..].
    destruct (decide (j ≤ i)) as [|Hlt]; [done|].
    destruct (Hleast i level); [lia|done..].
  - unfold get_taxa_level_index in Hget.
    rewrite get_taxa_level_index_from_None in Hget.
    destruct (Hget level); [by eapply list_elem_of_lookup_2|done].
Qed.

Lemma resolution_coarsest_first_witness :
  ∃ k level', get_taxa_level_index "Actinobacteria" taxa_levels gtdb_actino
              = Some k ∧
    k ≤ 2 ∧ taxa_levels !! k = Some level' ∧
    "Actinobacteria" ∈ column level' gtdb_actino ∧
    ∀ j l, j < k → taxa_levels !! j = Some l →
      "Actinobacteria" ∉ column l gtdb_actino.
Proof.
  apply (resolution_coarsest_first "Actinobacteria" gtdb_actino 2 Class_).
  - reflexivity.
  - apply (bool_decide_unpack _). vm_compute. exact I.
Defined.

(** C6, as stated, fails: the name of the example is both a phylum and a
    class; the code answers the phylum (position 1), a scan from species up
    to domain answers the class (position 2). *)
Lemma resolution_not_finest_first :
  get_taxa_level_index "Actinobacteria" taxa_levels gtdb_actino = Some 1 ∧
  resolve_finest_first "Actinobacteria" gtdb_actino = Some 2 ∧
  get_taxa_level_index "Actinobacteria" taxa_levels gtdb_actino
    ≠ resolve_finest_first "Actinobacteria" gtdb_actino.
Proof. repeat split; [vm_compute; reflexivity..|vm_compute; discriminate]. Qed.

(** ** Dictionaries *)

Section dict_facts.
Context {K V : Type} `{EqDecision K}.
Implicit Types (k : K) (v : V) (d : list (K * V)).

Lemma dict_get_None k d : dict_get k d = None ↔ k ∉ dict_keys d.
Proof.
  unfold dict_keys. induction d as [|[k' v'] d IH]; simpl.
  - split; [|done]. intros _. apply not_elem_of_nil.
  - rewrite not_elem_of_cons. case_decide as Hk.
    + split; [done|]. by intros [? _].
    + rewrite IH. split; [|by intros [_ ?]].
      intros ?. split; [congruence|done].
Qed.

Lemma dict_get_is_Some k d : is_Some (dict_get k d) ↔ k ∈ dict_keys d.
Proof.
  rewrite <-not_eq_None_Some, dict_get_None.
  destruct (decide (k ∈ dict_keys d)); naive_solver.
Qed.

Lemma dict_get_set_eq k v d : dict_get k (dict_set k v d) = Some v.
Proof.
  induction d as [|[k' v'] d IH]; simpl.
  - by rewrite decide_True.
  - case_decide; simpl; [by rewrite decide_True|by rewrite decide_False].
Qed.

Lemma dict_get_set_ne k k' v d :
  k ≠ k' → dict_get k' (dict_set k v d) = dict_get k' d.
Proof.
  intros Hne. induction d as [|[k1 v1] d IH]; simpl.
  - by rewrite decide_False.
  - case_decide as Hk1; simpl.
    + subst k1. by rewrite !decide_False.
    + by rewrite IH.
Qed.

Lemma dict_get_del_eq k d : dict_get k (dict_del k d) = None.
Proof.
  apply dict_get_None. unfold dict_keys, dict_del.
  intros ([k' v'] & -> & [Hne _]%list_elem_of_filter)%list_elem_of_fmap.
  done.
Qed.

Lemma dict_get_del_ne k k' d :
  k ≠ k' → dict_get k' (dict_del k d) = dict_get k' d.
Proof.
  intros Hne. unfold dict_del. induction d as [|[k1 v1] d IH]; [done|].
  destruct (decide (k1 = k)) as [->|Hk1].
  - rewrite filter_cons_False by (simpl; auto). simpl.
    by rewrite decide_False.
  - rewrite filter_cons_True by done. simpl. by rewrite IH.
Qed.

(** Assigning to a key leaves the entries of the other keys where they
    are. *)
Lemma dict_set_others (P : K * V → Prop) `{∀ kv, Decision (P kv)} k v d :
  (∀ v', ¬ P (k, v')) →
  filter P (dict_set k v d) = filter P d.
Proof.
  intros HP. induction d as [|[k1 v1] d IH]; simpl.
  - by rewrite filter_cons_False.
  - destruct (decide (k1 = k)) as [->|Hk1].
    + by rewrite !(filter_cons_False _ (k, _)).
    + by rewrite !(filter_cons _ (k1, v1)), IH.
Qed.

(** Assigning to a new key appends the entry. *)
Lemma dict_set_fresh k v d :
  k ∉ dict_keys d → dict_set k v d = d ++ [(k, v)].
Proof.
  unfold dict_keys. induction d as [|[k1 v1] d IH]; simpl; [done|].
  rewrite not_elem_of_cons. intros [Hne Hnotin].
  rewrite decide_False by done. by rewrite IH.
Qed.

Lemma dict_keys_set k v d :
  dict_keys (dict_set k v d) =
  if decide (k ∈ dict_keys d) then dict_keys d else dict_keys d ++ [k].
Proof.
  unfold dict_keys. induction d as [|[k1 v1] d IH].
  - simpl. destruct (decide (k ∈ [])) as [Hin|_]; [|done].
    by apply elem_of_nil in Hin.
  - cbn [dict_set]. destruct (decide (k1 = k)) as [->|Hne].
    + rewrite decide_True; [done|left].
    + rewrite !fmap_cons, IH. cbn [fst].
      destruct (decide (k ∈ d.*1)) as [Hin|Hnotin].
      * rewrite decide_True; [done|by right].
      * rewrite decide_False; [done|]. rewrite not_elem_of_cons.
        split; [congruence|done].
Qed.
End dict_facts.

(** ** Expansion of the wildcard *)

(** C8, as the code has it: when the scheme has the key ["all"], the expanded
    scheme has no key ["all"], maps ["Bacteria"] and ["Archaea"] to the
    parameters of the wildcard, and keeps every rule whose key is none of
    the three, with its parameters and in its place.  A rule that the scheme
    already had under one of the two domain names is overwritten. *)
Theorem expand_all_wildcard (scheme : list (string * Params))
    (params : Params) :
  dict_get "all" scheme = Some params →
  ("all" ∉ dict_keys (expand_all scheme)) ∧
  dict_get "Bacteria" (expand_all scheme) = Some params ∧
  dict_get "Archaea" (expand_all scheme) = Some params ∧
  (∀ k, k ≠ "all" → k ≠ "Bacteria" → k ≠ "Archaea" →
     dict_get k (expand_all scheme) = dict_get k scheme) ∧
  (filter (λ kv, kv.1 ≠ "Bacteria" ∧ kv.1 ≠ "Archaea") (expand_all scheme)
   = filter (λ kv, kv.1 ≠ "Bacteria" ∧ kv.1 ≠ "Archaea")
            (dict_del "all" scheme)).
Proof.
  intros Hall. unfold expand_all. rewrite Hall. repeat split.
  - apply dict_get_None.
    rewrite !dict_get_set_ne by done. apply dict_get_del_eq.
  - rewrite dict_get_set_ne by done. apply dict_get_set_eq.
  - apply dict_get_set_eq.
  - intros k Hk1 Hk2 Hk3.
    rewrite !dict_get_set_ne by done. by apply dict_get_del_ne.
  - rewrite !dict_set_others; [done|simpl; tauto..].
Qed.

Lemma expand_all_wildcard_witness :
  dict_get "Archaea" (expand_all scheme_with_bacteria)
  = Some (mkParams "domain" 2).
Proof.
  apply (expand_all_wildcard scheme_with_bacteria (mkParams "domain" 2)).
  reflexivity.
Defined.

(** C8, as stated, fails: the rule that the scheme has for ["Bacteria"] does
    not pass through unchanged, it takes the parameters of the wildcard. *)
Lemma expand_all_overwrites_domain_rule :
  dict_get "all" scheme_with_bacteria = Some (mkParams "domain" 2) ∧
  dict_get "Bacteria" scheme_with_bacteria = Some (mkParams "genus" 5) ∧
  dict_get "Bacteria" (expand_all scheme_with_bacteria)
  = Some (mkParams "domain" 2) ∧
  dict_get "Bacteria" (expand_all scheme_with_bacteria)
  ≠ dict_get "Bacteria" scheme_with_bacteria.
Proof. repeat split; [vm_compute; reflexivity..|vm_compute; discriminate]. Qed.

(** ** Rule validation *)

(** A loop over a list with an element on which the body always raises does
    not run to its end. *)
Lemma foldM_raises {A B : Type} (f : A → B → result A) l x :
  x ∈ l → (∀ a, ∃ e, f a x = Err e) → ∀ a, ∃ e, foldM f a l = Err e.
Proof.
  intros Hx Hraise. induction l as [|y l IH]; intros a; simpl.
  - by apply elem_of_nil in Hx.
  - destruct (f a y) as [a'|e] eqn:Hy; simpl; [|by exists e].
    apply elem_of_cons in Hx as [->|Hx]; [|by apply IH].
    destruct (Hraise a) as [e He]. congruence.
Qed.

Lemma validate_rule_resolved df scheme so taxa params ti si :
  dict_get taxa scheme = Some params →
  get_taxa_level_index taxa taxa_levels df = Some ti →
  taxa_levels_index (sampling_level params) = Ok si →
  validate_rule df scheme so taxa =
    if decide (ti ≤ si) then
      Ok (dict_set ti
            (default [] (dict_get ti so)
               ++ [(taxa, sampling_level params, n_taxa params)]) so)
    else Err (SysExit msg_higher_level).
Proof.
  intros Hparams Hti Hsi. unfold validate_rule.
  assert (check_taxa_name taxa taxa_levels df = true) as ->.
  { apply check_taxa_name_is_Some. by rewrite Hti. }
  rewrite Hparams, Hti, Hsi. simpl.
  case_decide; [|done]. by destruct (dict_get ti so).
Qed.

(** C1, as the code has it: a rule whose [sampling_level] is strictly coarser
    than the rank resolved for its taxon (a smaller position in
    [taxa_levels]) is refused with the exit "Can't sample from a higher
    taxonomic level", and the run aborts; a rule whose [sampling_level] is
    the rank of its taxon or a finer one, such as a genus sampled per
    species, passes validation. *)
Theorem coarser_target_rejected {RNG : Type}
    (sample : RNG → nat → bool → list Row → list Row * RNG)
    (df : DataFrame) (scheme : list (string * Params)) (seed : RNG)
    (taxa : string) (params : Params) (ti si : nat) :
  dict_get taxa (expand_all scheme) = Some params →
  get_taxa_level_index taxa taxa_levels df = Some ti →
  taxa_levels_index (sampling_level params) = Ok si →
  (si < ti →
     (∀ so, validate_rule df (expand_all scheme) so taxa
            = Err (SysExit msg_higher_level)) ∧
     (∃ e, build_sampling_order df (expand_all scheme) = Err e) ∧
     (∃ e, subsample_gtdb sample df scheme seed = Err e)) ∧
  (ti ≤ si → ∀ so, is_ok (validate_rule df (expand_all scheme) so taxa)).
Proof.
  intros Hparams Hti Hsi. split.
  - intros Hlt.
    assert (∀ so, validate_rule df (expand_all scheme) so taxa
                  = Err (SysExit msg_higher_level)) as Hrefuse.
    { intros so. rewrite (validate_rule_resolved _ _ _ _ _ _ _ Hparams Hti Hsi).
      rewrite decide_False; [done|lia]. }
    assert (∃ e, build_sampling_order df (expand_all scheme) = Err e)
      as [e He].
    { apply (foldM_raises _ _ taxa).
      - apply dict_get_is_Some. by rewrite Hparams.
      - intros so. eexists. apply Hrefuse. }
    split; [done|]. split; [by exists e|].
    exists e. unfold subsample_gtdb. by rewrite He.
  - intros Hle so.
    rewrite (validate_rule_resolved _ _ _ _ _ _ _ Hparams Hti Hsi).
    by rewrite decide_True.
Qed.

Lemma coarser_target_rejected_witness :
  ∃ e, subsample_gtdb sample_head gtdb_small scheme_species_by_genus tt
       = Err e.
Proof.
  destruct (coarser_target_rejected sample_head gtdb_small
              scheme_species_by_genus tt "Escherichia coli"
              (mkParams "genus" 1) 6 5) as [Hrefuse _].
  - reflexivity.
  - reflexivity.
  - reflexivity.
  - apply Hrefuse. lia.
Defined.

(** C1, as stated, fails: the rule names a genus (position 5) and samples
    at species (position 6), a strictly finer rank; validation accepts it
    and the run completes. *)
Lemma genus_rule_with_species_target_accepted :
  get_taxa_level_index "Escherichia" taxa_levels gtdb_small = Some 5 ∧
  taxa_levels_index "species" = Ok 6 ∧
  build_sampling_order gtdb_small (expand_all scheme_genus_by_species)
  = Ok [(5, [("Escherichia", "species", 1)])] ∧
  is_ok (subsample_gtdb sample_head gtdb_small scheme_genus_by_species tt).
Proof. repeat split; vm_compute; reflexivity. Qed.

(** ** Bucketing and the order of processing *)

Lemma validate_rule_Ok df scheme so taxa so' :
  validate_rule df scheme so taxa = Ok so' →
  ∃ params ti si,
    dict_get taxa scheme = Some params ∧
    get_taxa_level_index taxa taxa_levels df = Some ti ∧
    taxa_levels_index (sampling_level params) = Ok si ∧
    ti ≤ si ∧
    so' = dict_set ti (default [] (dict_get ti so) ++ [rule_of taxa params])
                   so.
Proof.
  unfold validate_rule.
  destruct (check_taxa_name taxa taxa_levels df); [|done].
  destruct (dict_get taxa scheme) as [params|]; [|done].
  destruct (taxa_levels_index (sampling_level params)) as [si|] eqn:Hsi;
    [|done].
  simpl.
  destruct (get_taxa_level_index taxa taxa_levels df) as [ti|]; [|done].
  case_decide; [|done].
  intros Hso'. exists params, ti, si. split_and!; [done..|].
  by destruct (dict_get ti so); injection Hso' as <-.
Qed.

Lemma in_order_set so ti x k r :
  in_order (dict_set ti (default [] (dict_get ti so) ++ [x]) so) k r ↔
  in_order so k r ∨ (k = ti ∧ r = x).
Proof.
  unfold in_order. destruct (decide (ti = k)) as [->|Hne].
  - rewrite dict_get_set_eq. split.
    + intros (bucket & [= <-] & [Hin| ->%list_elem_of_singleton]%elem_of_app);
        [|by right].
      left. destruct (dict_get k so) as [b|]; simpl in Hin; [by exists b|].
      by apply elem_of_nil in Hin.
    + intros Hcase. exists (default [] (dict_get k so) ++ [x]).
      split; [done|]. apply elem_of_app.
      destruct Hcase as [(bucket & -> & Hin)|[_ ->]]; [by left|].
      right. by apply list_elem_of_singleton.
  - rewrite dict_get_set_ne by done. split; [by left|].
    intros [?|[-> _]]; done.
Qed.

Lemma elem_of_processing_sequence so k r :
  (k, r) ∈ processing_sequence so ↔ in_order so k r.
Proof.
  unfold processing_sequence, in_order. rewrite list_elem_of_bind. split.
  - intros (key & Hin & _).
    destruct (dict_get key so) as [bucket|] eqn:Hget;
      [|by apply elem_of_nil in Hin].
    apply list_elem_of_fmap in Hin as (r' & [= -> ->] & Hr).
    by exists bucket.
  - intros (bucket & Hget & Hr). exists k. rewrite Hget. split.
    + by apply list_elem_of_fmap_2.
    + apply dict_get_is_Some. by rewrite Hget.
Qed.

Lemma get_taxa_level_index_bound taxa df k :
  get_taxa_level_index taxa taxa_levels df = Some k →
  is_Some (taxa_levels !! k).
Proof.
  intros (j & level & -> & Hj & _)%get_taxa_level_index_from_Some.
  by exists level.
Qed.

Lemma validate_rule_buckets_ok df scheme so taxa so' :
  buckets_ok df so → validate_rule df scheme so taxa = Ok so' →
  buckets_ok df so'.
Proof.
  intros (Hnodup & Hbound & Hrank)
    (params & ti & si & _ & Hti & _ & _ & ->)%validate_rule_Ok.
  split; [|split].
  - rewrite dict_keys_set. case_decide as Hin; [done|].
    apply NoDup_app. split; [done|]. split; [|apply NoDup_singleton].
    by intros k Hk ->%list_elem_of_singleton.
  - intros k. rewrite dict_keys_set.
    case_decide; [by apply Hbound|].
    intros [?| ->%list_elem_of_singleton]%elem_of_app; [by apply Hbound|].
    by eapply get_taxa_level_index_bound.
  - intros k r [?|[-> ->]]%in_order_set; [by apply Hrank|done].
Qed.

Lemma build_sampling_order_ok df scheme so :
  build_sampling_order df scheme = Ok so → buckets_ok df so.
Proof.
  apply (foldM_invariant (buckets_ok df)).
  - intros a x a' _. apply validate_rule_buckets_ok.
  - split; [apply NoDup_nil_2|]. split.
    + by intros k ?%elem_of_nil.
    + by intros k r (bucket & [=] & _).
Qed.

Lemma build_sampling_order_complete df scheme l so so' :
  foldM (validate_rule df scheme) so l = Ok so' →
  (∀ k r, in_order so k r → in_order so' k r) ∧
  (∀ taxa, taxa ∈ l →
     ∃ params k, dict_get taxa scheme = Some params ∧
       in_order so' k (rule_of taxa params)).
Proof.
  revert so. induction l as [|t l IH]; intros so; simpl.
  - intros [= <-]. split; [done|]. by intros taxa ?%elem_of_nil.
  - intros (so1 & Hstep & Hrest)%bind_Ok.
    destruct (IH _ Hrest) as [Hmono Hall].
    apply validate_rule_Ok in Hstep
      as (params & ti & si & Hparams & _ & _ & _ & ->).
    split.
    + intros k r Hin. apply Hmono, in_order_set. by left.
    + intros taxa [->|Hin]%elem_of_cons; [|by apply Hall].
      exists params, ti. split; [done|].
      apply Hmono, in_order_set. by right.
Qed.

Lemma reorder_loop (so acc : list (nat * list Sampling)) (ks : list nat) :
  NoDup (dict_keys acc ++ ks) →
  (∀ k, k ∈ ks → k ∈ dict_keys so) →
  foldM (λ acc key,
           match dict_get key so with
           | Some bucket => Ok (dict_set key bucket acc)
           | None => Err KeyError
           end) acc ks
  = Ok (acc ++ ((λ k, (k, default [] (dict_get k so))) <$> ks)).
Proof.
  revert acc. induction ks as [|k ks IH]; intros acc Hnodup Hks; simpl.
  - by rewrite app_nil_r.
  - destruct (proj2 (dict_get_is_Some k so)) as [bucket Hget].
    { apply Hks. left. }
    rewrite Hget. simpl.
    apply NoDup_app in Hnodup as (Hacc & Hdisj & Hnd).
    rewrite dict_set_fresh.
    + rewrite IH.
      * by rewrite <-app_assoc.
      * unfold dict_keys. rewrite fmap_app, <-app_assoc. simpl.
        apply NoDup_app. done.
      * intros k' ?. apply Hks. by right.
    + intros Hin. apply (Hdisj k Hin). left.
Qed.

Lemma sorted_reverse_Permutation ks : sorted_reverse ks ≡ₚ ks.
Proof. apply merge_sort_Permutation. Qed.

Lemma reorder_Ok so :
  NoDup (dict_keys so) →
  reorder so
  = Ok ((λ k, (k, default [] (dict_get k so)))
          <$> sorted_reverse (dict_keys so)).
Proof.
  intros Hnodup. unfold reorder. rewrite reorder_loop; [done|..].
  - simpl. by rewrite sorted_reverse_Permutation.
  - intros k. by rewrite sorted_reverse_Permutation.
Qed.

Lemma dict_keys_tabulate {V : Type} (f : nat → V) (ks : list nat) :
  dict_keys ((λ k, (k, f k)) <$> ks) = ks.
Proof.
  unfold dict_keys.
  induction ks as [|k ks IH]; [done|]. rewrite !fmap_cons. by f_equal.
Qed.

Lemma dict_get_tabulate {V : Type} (f : nat → V) (ks : list nat) (k : nat) :
  dict_get k ((λ k, (k, f k)) <$> ks)
  = if decide (k ∈ ks) then Some (f k) else None.
Proof.
  induction ks as [|k' ks IH].
  - simpl. destruct (decide (k ∈ [])) as [Hin|]; [|done].
    by apply elem_of_nil in Hin.
  - rewrite fmap_cons. cbn [dict_get].
    destruct (decide (k' = k)) as [->|Hne].
    + rewrite decide_True; [done|left].
    + rewrite IH. destruct (decide (k ∈ ks)) as [Hin|Hnotin].
      * rewrite decide_True; [done|by right].
      * rewrite decide_False; [done|]. rewrite not_elem_of_cons.
        split; [congruence|done].
Qed.

Lemma in_order_reordered so k r :
  in_order ((λ k, (k, default [] (dict_get k so)))
              <$> sorted_reverse (dict_keys so)) k r
  ↔ in_order so k r.
Proof.
  unfold in_order. rewrite dict_get_tabulate. split.
  - intros (bucket & Hget & Hr). case_decide as Hin; [|done].
    injection Hget as <-.
    rewrite sorted_reverse_Permutation in Hin.
    apply dict_get_is_Some in Hin as [b Hb]. rewrite Hb in Hr. by exists b.
  - intros (bucket & Hget & Hr). exists bucket. split; [|done].
    rewrite decide_True; [by rewrite Hget|].
    rewrite sorted_reverse_Permutation. apply dict_get_is_Some.
    by rewrite Hget.
Qed.

Lemma StronglySorted_lookup {A : Type} (R : relation A) (l : list A)
    (i j : nat) (x y : A) :
  StronglySorted R l → i < j → l !! i = Some x → l !! j = Some y → R x y.
Proof.
  intros Hsorted. revert i j.
  induction Hsorted as [|z l Hsorted IH Hall]; intros i j Hlt; [done|].
  destruct i as [|i], j as [|j]; simpl; try lia.
  - intros [= <-] Hy. eapply Forall_forall; [done|].
    by eapply list_elem_of_lookup_2.
  - apply IH. lia.
Qed.

Lemma StronglySorted_constant {A : Type} (R : relation A) `{!Reflexive R}
    (l : list A) (x : A) :
  Forall (λ y, y = x) l → StronglySorted R l.
Proof.
  induction 1 as [|y l -> Hall IH]; constructor; [done|].
  eapply Forall_impl; [done|]. by intros ? ->.
Qed.

Lemma processing_sequence_sorted (so : list (nat * list Sampling)) :
  StronglySorted (flip Nat.le) (dict_keys so) →
  StronglySorted (flip Nat.le) (processing_sequence so).*1.
Proof.
  unfold processing_sequence. generalize (dict_keys so) as ks.
  induction ks as [|k ks IH]; intros Hsorted; [constructor|].
  apply StronglySorted_cons in Hsorted as [Hk Hsorted].
  rewrite bind_cons, fmap_app. apply StronglySorted_app. split_and!.
  - intros k1 k2 Hk1 ([k' r] & -> & Hin)%list_elem_of_fmap.
    apply list_elem_of_bind in Hin as (key & Hin & Hkey).
    assert (k1 = k ∧ k' = key) as [-> ->].
    { split.
      - destruct (dict_get k so); [|by apply elem_of_nil in Hk1].
        rewrite <-list_fmap_compose in Hk1.
        by apply list_elem_of_fmap in Hk1 as (? & -> & _).
      - destruct (dict_get key so); [|by apply elem_of_nil in Hin].
        by apply list_elem_of_fmap in Hin as (? & [= -> ->] & _). }
    simpl. by eapply Forall_forall in Hk.
  - apply (StronglySorted_constant _ _ k).
    destruct (dict_get k so); [|constructor].
    rewrite <-list_fmap_compose. by apply Forall_fmap, Forall_true.
  - by apply IH.
Qed.

Lemma sorted_reverse_sorted ks :
  StronglySorted (flip Nat.le) (sorted_reverse ks).
Proof.
  apply StronglySorted_merge_sort.
  - intros x y z. unfold flip, Nat.le. lia.
  - intros x y. unfold flip, Nat.le. lia.
Qed.

Lemma foldM_ext {A B : Type} (f g : A → B → result A) l a :
  (∀ a x, x ∈ l → f a x = g a x) → foldM f a l = foldM g a l.
Proof.
  revert a. induction l as [|x l IH]; intros a Hfg; simpl; [done|].
  rewrite <-Hfg by left. destruct (f a x); simpl; [|done].
  apply IH. intros a' y ?. apply Hfg. by right.
Qed.

Lemma foldM_fmap {A B C : Type} (f : A → B → result A) (h : C → B) l a :
  foldM f a (h <$> l) = foldM (λ a c, f a (h c)) a l.
Proof.
  revert a. induction l as [|x l IH]; intros a; simpl; [done|].
  destruct (f a (h x)); simpl; [apply IH|done].
Qed.

Lemma foldM_bind {A B C : Type} (f : A → B → result A) (g : C → list B)
    ks a :
  foldM f a (ks ≫= g) = foldM (λ a k, foldM f a (g k)) a ks.
Proof.
  revert a. induction ks as [|k ks IH]; intros a; [done|].
  rewrite bind_cons, foldM_app. simpl.
  destruct (foldM f a (g k)); simpl; [apply IH|done].
Qed.

(** The nested loops of lines 111-113 visit the rules in the order of
    [processing_sequence]. *)
Lemma sample_all_flat {RNG : Type}
    (sample : RNG → nat → bool → list Row → list Row * RNG)
    (df : DataFrame) (so : list (nat * list Sampling)) (st : State RNG) :
  (∀ k, k ∈ dict_keys so → is_Some (taxa_levels !! k)) →
  sample_all sample df so st
  = foldM (sample_step sample df) st (processing_sequence so).
Proof.
  intros Hbound. unfold sample_all, processing_sequence.
  rewrite foldM_bind. apply foldM_ext. intros a k Hk.
  unfold sample_bucket.
  destruct (Hbound k Hk) as [level Hlevel].
  destruct (proj2 (dict_get_is_Some k so) Hk) as [bucket Hbucket].
  rewrite Hlevel, Hbucket. simpl. rewrite foldM_fmap.
  apply foldM_ext. intros a' r _. unfold sample_step. simpl.
  by rewrite Hlevel.
Qed.

(** C9: the rules that passed validation are processed by descending position
    of the rank resolved for their taxon: species-level rules first,
    domain-level rules last, and no rule of a coarser rank before a rule of
    a finer rank.  Every rule of the scheme is in the sequence, under the
    position resolved for its taxon. *)
Theorem rules_processed_finest_first {RNG : Type}
    (sample : RNG → nat → bool → list Row → list Row * RNG)
    (df : DataFrame) (scheme : list (string * Params))
    (so : list (nat * list Sampling)) :
  build_sampling_order df scheme = Ok so →
  ∃ so', reorder so = Ok so' ∧
    (∀ st, sample_all sample df so' st
           = foldM (sample_step sample df) st (processing_sequence so')) ∧
    (∀ i j ki ri kj rj, i < j →
       processing_sequence so' !! i = Some (ki, ri) →
       processing_sequence so' !! j = Some (kj, rj) →
       kj ≤ ki) ∧
    (∀ k r, (k, r) ∈ processing_sequence so' →
       get_taxa_level_index r.1.1 taxa_levels df = Some k) ∧
    (∀ taxa params, dict_get taxa scheme = Some params →
       ∃ k, (k, rule_of taxa params) ∈ processing_sequence so').
Proof.
  intros Hbuild.
  destruct (build_sampling_order_ok _ _ _ Hbuild) as (Hnodup & Hbound & Hrank).
  set (so' := (λ k, (k, default [] (dict_get k so)))
                <$> sorted_reverse (dict_keys so)).
  exists so'. split; [by apply reorder_Ok|]. split_and!.
  - intros st. apply sample_all_flat. intros k. unfold so'.
    rewrite dict_keys_tabulate, sorted_reverse_Permutation. apply Hbound.
  - intros i j ki ri kj rj Hlt Hi Hj.
    assert (StronglySorted (flip Nat.le) (processing_sequence so').*1)
      as Hsorted.
    { apply processing_sequence_sorted. unfold so'.
      rewrite dict_keys_tabulate. apply sorted_reverse_sorted. }
    apply (StronglySorted_lookup _ _ i j ki kj Hsorted Hlt).
    + by rewrite list_lookup_fmap, Hi.
    + by rewrite list_lookup_fmap, Hj.
  - intros k r Hin%elem_of_processing_sequence.
    apply (in_order_reordered so) in Hin. by apply Hrank.
  - intros taxa params Hparams.
    destruct (build_sampling_order_complete _ _ _ _ _ Hbuild) as [_ Hall].
    destruct (Hall taxa) as (params' & k & Hparams' & Hin).
    { apply dict_get_is_Some. by rewrite Hparams. }
    exists k. apply elem_of_processing_sequence.
    apply (in_order_reordered so). congruence.
Qed.

Lemma rules_processed_finest_first_witness :
  ∃ so',
    reorder [(5, [("Escherichia", "species", 1)]);
             (0, [("Bacteria", "domain", 1); ("Archaea", "domain", 1)])]
    = Ok so' ∧
    ∀ i j ki ri kj rj, i < j →
      processing_sequence so' !! i = Some (ki, ri) →
      processing_sequence so' !! j = Some (kj, rj) →
      kj ≤ ki.
Proof.
  destruct (rules_processed_finest_first sample_head gtdb_small
              (expand_all scheme_genus_then_domains)
              [(5, [("Escherichia", "species", 1)]);
               (0, [("Bacteria", "domain", 1); ("Archaea", "domain", 1)])])
    as (so' & Hso' & _ & Horder & _).
  - reflexivity.
  - exists so'. split; [exact Hso'|exact Horder].
Defined.

(** ** Grouping *)

Lemma group_keys_Permutation values :
  group_keys values ≡ₚ remove_dups values.
Proof. apply merge_sort_Permutation. Qed.

Lemma NoDup_group_keys values : NoDup (group_keys values).
Proof. rewrite group_keys_Permutation. apply NoDup_remove_dups. Qed.

Lemma elem_of_group_keys values v : v ∈ group_keys values ↔ v ∈ values.
Proof. rewrite group_keys_Permutation. apply elem_of_remove_dups. Qed.

Lemma length_group_keys values :
  length (group_keys values) = n_distinct values.
Proof.
  unfold n_distinct. rewrite group_keys_Permutation.
  rewrite <-(size_list_to_set (C:=gset string) (remove_dups values))
    by apply NoDup_remove_dups.
  f_equal. apply set_eq. intros v.
  by rewrite !elem_of_list_to_set, elem_of_remove_dups.
Qed.

Lemma groupby_nonempty level df key g :
  (key, g) ∈ groupby level df → n_rows g ≠ 0.
Proof.
  unfold groupby. intros (k & [= -> ->] & Hk)%list_elem_of_fmap.
  rewrite elem_of_group_keys in Hk. unfold column in Hk.
  apply list_elem_of_fmap in Hk as (r & -> & Hr).
  unfold n_rows, select_eq. simpl. intros Hlen%length_zero_iff_nil.
  by eapply (filter_nil_not_elem_of _ _ r) in Hlen.
Qed.

(** Every row falls into the group of its value: the groups are a partition
    of the rows. *)
Lemma bind_filter_skip {A : Type} (f : A → string) (ks : list string)
    (x : A) (l : list A) :
  f x ∉ ks →
  (k ← ks; filter (λ y, f y = k) (x :: l)) = (k ← ks; filter (λ y, f y = k) l).
Proof.
  induction ks as [|k ks IH]; [done|].
  rewrite not_elem_of_cons. intros [Hne Hnotin].
  rewrite !bind_cons, IH by done. by rewrite filter_cons_False.
Qed.

Lemma bind_filter_cons {A : Type} (f : A → string) (ks : list string)
    (x : A) (l : list A) :
  NoDup ks → f x ∈ ks →
  (k ← ks; filter (λ y, f y = k) (x :: l))
  ≡ₚ x :: (k ← ks; filter (λ y, f y = k) l).
Proof.
  induction ks as [|k ks IH]; intros Hnodup Hin.
  - by apply elem_of_nil in Hin.
  - apply NoDup_cons in Hnodup as [Hk Hnodup]. rewrite !bind_cons.
    destruct (decide (f x = k)) as [<-|Hne].
    + rewrite filter_cons_True by done. by rewrite bind_filter_skip.
    + rewrite filter_cons_False by done.
      apply elem_of_cons in Hin as [?|Hin]; [done|].
      rewrite IH by done. by rewrite Permutation_middle.
Qed.

Lemma bind_filter_partition {A : Type} (f : A → string) (ks : list string)
    (l : list A) :
  NoDup ks → (∀ x, x ∈ l → f x ∈ ks) →
  (k ← ks; filter (λ y, f y = k) l) ≡ₚ l.
Proof.
  intros Hnodup. induction l as [|x l IH]; intros Hcover.
  - clear. induction ks as [|k ks IH]; [done|]. by rewrite bind_cons, IH.
  - rewrite bind_filter_cons; [|done|apply Hcover; left].
    f_equiv. apply IH. intros y ?. apply Hcover. by right.
Qed.

(** ** Weight assignment *)

Lemma weigh_unit_nonempty prob_units acc g :
  n_rows g.2 ≠ 0 →
  weigh_unit prob_units acc g
  = Ok (acc ++ [set_sampling_prob
                  (prob_units / Qc_of_Z (Z.of_nat (n_rows g.2)))%Qc g.2]).
Proof.
  intros Hne. unfold weigh_unit, py_div. cbv zeta.
  by rewrite decide_False.
Qed.

Lemma foldM_weigh_unit prob_units groups acc :
  (∀ g, g ∈ groups → n_rows g.2 ≠ 0) →
  foldM (weigh_unit prob_units) acc groups
  = Ok (acc ++ ((λ g, set_sampling_prob
                        (prob_units / Qc_of_Z (Z.of_nat (n_rows g.2)))%Qc g.2)
                  <$> groups)).
Proof.
  revert acc. induction groups as [|g groups IH]; intros acc Hne.
  - simpl. by rewrite app_nil_r.
  - rewrite fmap_cons. cbn [foldM].
    rewrite weigh_unit_nonempty by (apply Hne; left). simpl.
    rewrite IH by (intros g' ?; apply Hne; by right).
    by rewrite <-app_assoc.
Qed.

Lemma concat_rows_fmap {A : Type} (f : A → DataFrame) (l : list A) :
  concat (rows <$> (f <$> l)) = x ← l; rows (f x).
Proof.
  induction l as [|x l IH]; [done|].
  rewrite !fmap_cons, bind_cons. cbn [concat]. by rewrite IH.
Qed.

Lemma pd_concat_fmap {A : Type} (f : A → DataFrame) (l : list A) :
  l ≠ [] →
  pd_concat (f <$> l)
  = Ok (mkDF (existsb has_sampling_prob (f <$> l)) (x ← l; rows (f x))).
Proof.
  intros Hne. rewrite <-concat_rows_fmap. by destruct l.
Qed.

Lemma existsb_fmap_true {A : Type} (f : A → DataFrame) (l : list A) :
  l ≠ [] → (∀ x, has_sampling_prob (f x) = true) →
  existsb has_sampling_prob (f <$> l) = true.
Proof. intros Hne Hf. destruct l as [|x l]; [done|]. simpl. by rewrite Hf. Qed.

Lemma n_distinct_nonzero level df :
  rows df ≠ [] ↔ n_distinct (column level df) ≠ 0.
Proof.
  rewrite <-length_group_keys. split.
  - intros Hne Hlen%length_zero_iff_nil.
    destruct (rows df) as [|r l] eqn:Hrows; [done|].
    assert (rank_field level r ∈ group_keys (column level df)) as Hin.
    { apply elem_of_group_keys. unfold column. rewrite Hrows, fmap_cons.
      left. }
    rewrite Hlen in Hin. by apply elem_of_nil in Hin.
  - intros Hlen Hnil. apply Hlen. unfold column. by rewrite Hnil.
Qed.

Lemma groupby_nil level df : groupby level df = [] ↔ rows df = [].
Proof.
  unfold groupby. split.
  - intros Hnil%fmap_nil_inv.
    destruct (decide (rows df = [])) as [|Hne]; [done|].
    apply (n_distinct_nonzero level) in Hne.
    rewrite <-length_group_keys, Hnil in Hne. done.
  - intros Hnil. unfold column. by rewrite Hnil.
Qed.

Lemma assign_weights_weighted sampling_level index base_level sampling_df :
  taxa_levels_index sampling_level = Ok index →
  taxa_levels !! (index + 1) = Some base_level →
  rows sampling_df ≠ [] →
  assign_weights sampling_level sampling_df
  = Ok (mkDF true (weighted_rows base_level sampling_df)).
Proof.
  intros Hindex Hbase Hrows. unfold assign_weights.
  rewrite Hindex. simpl. rewrite Hbase. simpl.
  unfold py_div at 1.
  rewrite decide_False by by apply n_distinct_nonzero. simpl.
  rewrite foldM_weigh_unit
    by (intros [key g] ?; by eapply groupby_nonempty). simpl.
  rewrite pd_concat_fmap by by rewrite groupby_nil.
  rewrite existsb_fmap_true; [done|by rewrite groupby_nil|done].
Qed.

Lemma assign_weights_Ok sampling_level sampling_df weighted :
  assign_weights sampling_level sampling_df = Ok weighted →
  ∃ index base_level,
    taxa_levels_index sampling_level = Ok index ∧
    taxa_levels !! (index + 1) = Some base_level ∧
    rows sampling_df ≠ [] ∧
    weighted = mkDF true (weighted_rows base_level sampling_df).
Proof.
  intros Hok.
  destruct (taxa_levels_index sampling_level) as [index|] eqn:Hindex;
    [|by unfold assign_weights in Hok; rewrite Hindex in Hok].
  destruct (taxa_levels !! (index + 1)) as [base_level|] eqn:Hbase;
    [|by unfold assign_weights in Hok; rewrite Hindex in Hok; simpl in Hok;
       rewrite Hbase in Hok].
  destruct (decide (rows sampling_df = [])) as [Hnil|Hne].
  - unfold assign_weights in Hok. rewrite Hindex in Hok. simpl in Hok.
    rewrite Hbase in Hok. simpl in Hok. unfold py_div at 1 in Hok.
    rewrite decide_True in Hok; [done|].
    unfold n_distinct, column. by rewrite Hnil.
  - exists index, base_level. split_and!; [done..|].
    rewrite (assign_weights_weighted _ _ _ _ Hindex Hbase Hne) in Hok.
    by injection Hok.
Qed.

Lemma bind_fmap_out {A B C : Type} (f : B → C) (g : A → list B)
    (l : list A) :
  (x ← l; f <$> g x) = f <$> (x ← l; g x).
Proof.
  induction l as [|x l IH]; [done|]. by rewrite !bind_cons, fmap_app, IH.
Qed.

(** Every record of the pool carries the weight of its unit. *)
Lemma weighted_rows_Permutation base_level sampling_df :
  weighted_rows base_level sampling_df
  ≡ₚ (λ r, with_sampling_prob (unit_weight base_level sampling_df r) r)
       <$> rows sampling_df.
Proof.
  unfold weighted_rows, groupby. rewrite list_fmap_bind.
  etrans; [|apply fmap_Permutation,
             (bind_filter_partition (rank_field base_level)
                (group_keys (column base_level sampling_df)))].
  - rewrite <-bind_fmap_out. apply reflexive_eq, list_bind_ext; [|done].
    intros key. simpl. apply list_fmap_ext. intros i r Hr.
    apply list_elem_of_lookup_2, list_elem_of_filter in Hr as [<- _]. done.
  - apply NoDup_group_keys.
  - intros r Hr. apply elem_of_group_keys. unfold column.
    by apply list_elem_of_fmap_2.
Qed.

Lemma weighted_rows_accessions base_level sampling_df :
  accession <$> weighted_rows base_level sampling_df
  ≡ₚ accessions sampling_df.
Proof.
  rewrite weighted_rows_Permutation, <-list_fmap_compose. done.
Qed.


Global Instance prob_sum_Permutation : Proper ((≡ₚ) ==> (=)) prob_sum.
Proof.
  induction 1 as [|r l1 l2 _ IH|r1 r2 l|l1 l2 l3 _ IH1 _ IH2]; simpl.
  - done.
  - by rewrite IH.
  - ring.
  - congruence.
Qed.









(** ** The exclusion of used records *)

Section exclusion.
Context {RNG : Type}.
Variable sample : RNG → nat → bool → list Row → list Row * RNG.

Lemma candidate_pool_excludes df used level taxa a u :
  a ∈ accessions (candidate_pool df used level taxa) →
  u ∈ used → a ∉ accessions u.
Proof.
  unfold candidate_pool, drop_accessions, accessions at 1. cbn [rows].
  intros (r & -> & [Hr _]%list_elem_of_filter)%list_elem_of_fmap Hu Hin.
  apply Hr, list_elem_of_bind. by exists u.
Qed.

Lemma candidate_pool_matches df used level taxa r :
  r ∈ rows (candidate_pool df used level taxa) →
  r ∈ rows df ∧ rank_field level r = taxa.
Proof.
  unfold candidate_pool, drop_accessions, select_eq. cbn [rows].
  intros [_ [? ?]%list_elem_of_filter]%list_elem_of_filter. done.
Qed.



End exclusion.



(** ** Stratified sampling *)

Section stratified.
Context {RNG : Type}.
Variable sample : RNG → nat → bool → list Row → list Row * RNG.
Hypothesis sample_contract : without_replacement sample.

Lemma sample_group_selected n_taxa acc g :
  ∃ sel, (sample_group sample n_taxa acc g).1 = acc.1 ++ [sel] ∧
    group_selected sample n_taxa g.2 sel.
Proof.
  unfold sample_group. cbv zeta.
  destruct (decide (n_taxa < n_rows g.2)) as [Hlt|Hge].
  - destruct (sample_contract acc.2 n_taxa (has_sampling_prob g.2)
                (rows g.2)) as [Hlen Hsub]; [unfold n_rows in Hlt; lia|].
    exists (mkDF (has_sampling_prob g.2)
              (sample acc.2 n_taxa (has_sampling_prob g.2) (rows g.2)).1).
    split; [by destruct (has_sampling_prob g.2)|].
    unfold group_selected, n_rows. cbn [rows has_sampling_prob].
    split_and!; [done|lia|unfold n_rows in Hlt; lia|].
    intros _. split_and!; [done..|]. by exists acc.2.
  - exists g.2. split; [done|].
    unfold group_selected. split_and!; [done|lia|done|lia].
Qed.

Lemma foldl_sample_group n_taxa groups acc :
  ∃ selections,
    (foldl (sample_group sample n_taxa) acc groups).1
    = acc.1 ++ selections ∧
    Forall2 (λ g sel, group_selected sample n_taxa g.2 sel)
            groups selections.
Proof.
  revert acc. induction groups as [|g groups IH]; intros acc; simpl.
  - exists []. by rewrite app_nil_r.
  - destruct (sample_group_selected n_taxa acc g) as (sel & Hsel & Hg).
    destruct (IH (sample_group sample n_taxa acc g))
      as (selections & Hrest & Hall).
    exists (sel :: selections). split.
    + by rewrite Hrest, Hsel, <-app_assoc.
    + by constructor.
Qed.
End stratified.



Lemma sample_head_without_replacement : without_replacement sample_head.
Proof.
  intros rng n weighted l Hn. unfold sample_head. cbn [fst]. split.
  - rewrite length_take. lia.
  - apply sublist_submseteq, sublist_take.
Qed.


(** ** Degenerate rules *)

(** A quota of zero selects nothing and the run completes. *)
Example zero_quota_selects_nothing :
  subsample_gtdb sample_head gtdb_small scheme_zero_quota tt
  = Ok (mkDF true []).
Proof. vm_compute. reflexivity. Qed.

(** An empty candidate pool of a rule that samples per species selects
    nothing and the run completes with the selections of the other rules. *)
Example empty_pool_at_species_selects_nothing :
  rows (candidate_pool gtdb_small
          [mkDF false [ecoli1; ecoli2]; mkDF false [efergusonii]]
          Genus "Escherichia") = [] ∧
  subsample_gtdb sample_head gtdb_small scheme_species_then_genus tt
  = Ok (mkDF false [ecoli1; efergusonii]).
Proof. split; vm_compute; reflexivity. Qed.

(** C5, at the failing input: the genus rule uses up every record of the
    domain Bacteria, the rule that the wildcard gives to Bacteria finds an
    empty pool, and since it samples at domain level the weights are
    computed: [1 / n_units] with [n_units = 0] raises and the run aborts,
    whatever the sampler draws. *)
Theorem empty_pool_weight_assignment_aborts {RNG : Type}
    (sample : RNG → nat → bool → list Row → list Row * RNG) (seed : RNG) :
  rows (candidate_pool gtdb_small [mkDF false [ecoli1; ecoli2; efergusonii]]
          Domain "Bacteria") = [] ∧
  assign_weights "domain" (mkDF false []) = Err ZeroDivisionError ∧
  subsample_gtdb sample gtdb_small scheme_genus_then_domains seed
  = Err ZeroDivisionError.
Proof. split_and!; vm_compute; reflexivity. Qed.

(** ** The columns of the output *)

(** C7, as stated, fails: the rule samples at genus level, so its pool gets
    the weight column; the table that is written out has the column, which
    the input has not, and its rows carry their weights. *)
Lemma output_keeps_sampling_prob :
  ∃ out,
    subsample_gtdb sample_head gtdb_small scheme_genus_by_genus tt = Ok out ∧
    has_sampling_prob gtdb_small = false ∧
    has_sampling_prob out = true ∧
    accessions out = ["GCF_000005845.2"; "GCF_000008865.2"] ∧
    Forall (λ r, sampling_prob r ≠ None) (rows out).
Proof.
  eexists. split; [vm_compute; reflexivity|].
  split_and!; [reflexivity..|]. repeat constructor; discriminate.
Qed.

Lemma build_sampling_order_sound df scheme so k r :
  build_sampling_order df scheme = Ok so → in_order so k r →
  ∃ taxa params, dict_get taxa scheme = Some params ∧ r = rule_of taxa params.
Proof.
  intros Hbuild. revert k r.
  eapply (foldM_invariant
            (λ so, ∀ k r, in_order so k r →
               ∃ taxa params,
                 dict_get taxa scheme = Some params ∧ r = rule_of taxa params));
    [| |exact Hbuild].
  - intros a x a' _ Ha Hstep. cbv beta in *.
    apply validate_rule_Ok in Hstep as (params & ti & si & Hp & _ & _ & _ & ->).
    intros k r Hin. apply in_order_set in Hin as [?|[-> ->]]; [by eapply Ha|].
    by exists x, params.
  - by intros k r (bucket & [=] & _).
Qed.

Section provenance.
Context {RNG : Type}.
Variable sample : RNG → nat → bool → list Row → list Row * RNG.
Hypothesis sample_contract : without_replacement sample.

Lemma sample_rule_Ok df level st sampling st' :
  sample_rule sample df level st sampling = Ok st' →
  ∃ pool target selections,
    column_named sampling.1.2 = Ok target ∧
    (if decide (sampling.1.2 ≠ "species")
     then rows (candidate_pool df (used_data st) level sampling.1.1) ≠ [] ∧
          ∃ base, pool = mkDF true (weighted_rows base
                    (candidate_pool df (used_data st) level sampling.1.1))
     else pool = candidate_pool df (used_data st) level sampling.1.1) ∧
    sampled_dfs st' = sampled_dfs st ++ selections ∧
    Forall2 (λ g sel, group_selected sample sampling.2 g.2 sel)
            (groupby target pool) selections.
Proof.
  unfold sample_rule. cbv zeta.
  intros (pool & Hpool & (target & Htarget & [= <-])%bind_Ok)%bind_Ok.
  destruct (foldl_sample_group sample sample_contract sampling.2
              (groupby target pool) (sampled_dfs st, rng st))
    as (selections & Hsel & Hall).
  exists pool, target, selections. split_and!; [done| |done..].
  case_decide.
  - apply assign_weights_Ok in Hpool as (i & base & _ & _ & Hne & ->).
    split; [done|by exists base].
  - by injection Hpool.
Qed.

Lemma candidate_pool_from_table df used level taxa r :
  r ∈ rows (candidate_pool df used level taxa) → from_table df r.
Proof.
  intros [Hr _]%candidate_pool_matches. exists r. split; [done|by left].
Qed.

Lemma weighted_rows_from_table df used level taxa base r :
  r ∈ weighted_rows base (candidate_pool df used level taxa) →
  from_table df r.
Proof.
  rewrite weighted_rows_Permutation.
  intros (r0 & -> & [Hr0 _]%candidate_pool_matches)%list_elem_of_fmap.
  exists r0. split; [done|]. right. by eexists.
Qed.

Lemma group_selected_rows n_taxa g sel r :
  group_selected sample n_taxa g sel → r ∈ rows sel → r ∈ rows g.
Proof.
  intros (_ & _ & Hsmall & Hlarge) Hr.
  destruct (decide (n_taxa < n_rows g)) as [Hlt|Hge].
  - destruct (Hlarge Hlt) as (_ & Hsub & _).
    by eapply elem_of_submseteq.
  - by rewrite <-Hsmall by lia.
Qed.

Lemma groupby_rows level df key g r :
  (key, g) ∈ groupby level df → r ∈ rows g → r ∈ rows df.
Proof.
  unfold groupby. intros (k & [= -> ->] & _)%list_elem_of_fmap.
  unfold select_eq. cbn [rows]. by intros [_ ?]%list_elem_of_filter.
Qed.

Lemma groupby_has_sampling_prob level df key g :
  (key, g) ∈ groupby level df → has_sampling_prob g = has_sampling_prob df.
Proof.
  unfold groupby. by intros (k & [= -> ->] & _)%list_elem_of_fmap.
Qed.
End provenance.

Section columns.
Context {RNG : Type}.
Variable sample : RNG → nat → bool → list Row → list Row * RNG.
Hypothesis sample_contract : without_replacement sample.
Variable df : DataFrame.
Hypothesis df_unweighted : has_sampling_prob df = false.

Lemma sample_rule_selections_ok level st sampling st' processed :
  sample_rule sample df level st sampling = Ok st' →
  selections_ok df processed (sampled_dfs st) →
  selections_ok df (processed ++ [sampling]) (sampled_dfs st').
Proof.
  intros (pool & target & selections & _ & Hpool & -> & Hall)
    %(sample_rule_Ok sample sample_contract) (Hcol & Hweighted & Hrows).
  assert (has_sampling_prob pool = bool_decide (sampling.1.2 ≠ "species")
          ∧ (∀ r, r ∈ rows pool → from_table df r)
          ∧ (sampling.1.2 ≠ "species" → rows pool ≠ []))
    as (Hflag & Hfrom & Hne).
  { case_decide as Hlevel.
    - destruct Hpool as (Hcands & base & ->). split_and!.
      + by rewrite bool_decide_eq_true_2.
      + intros r. apply weighted_rows_from_table.
      + intros _ Hnil. cbn [rows] in Hnil.
        pose proof (weighted_rows_Permutation base
          (candidate_pool df (used_data st) level sampling.1.1)) as Hperm.
        rewrite Hnil in Hperm. apply Permutation_nil_l in Hperm.
        symmetry in Hperm. by apply fmap_nil_inv in Hperm.
    - subst pool. split_and!; [|by apply candidate_pool_from_table|done].
      rewrite bool_decide_eq_false_2 by (by intros []).
      exact df_unweighted. }
  assert (∀ sel, sel ∈ selections →
            has_sampling_prob sel = has_sampling_prob pool ∧
            ∀ r, r ∈ rows sel → r ∈ rows pool) as Hsel.
  { intros sel (i & Hi)%list_elem_of_lookup_1.
    destruct (Forall2_lookup_r _ _ _ _ _ Hall Hi) as ([key g] & Hg & Hgsel).
    apply list_elem_of_lookup_2 in Hg. split.
    - destruct Hgsel as (-> & _). by eapply groupby_has_sampling_prob.
    - intros r Hr. eapply groupby_rows; [done|].
      by eapply group_selected_rows. }
  split_and!.
  - intros sel [Hold|Hnew]%elem_of_app Htrue.
    + destruct (Hcol sel Hold Htrue) as (s & ? & ?).
      exists s. split; [|done]. apply elem_of_app. by left.
    + exists sampling. split; [apply elem_of_app; right; left|].
      destruct (Hsel sel Hnew) as [Hsame _].
      rewrite Hsame, Hflag in Htrue. by apply bool_decide_eq_true_1 in Htrue.
  - intros s [Hold| ->%list_elem_of_singleton]%elem_of_app Hlevel.
    + destruct (Hweighted s Hold Hlevel) as (sel & ? & ?).
      exists sel. split; [|done]. apply elem_of_app. by left.
    + destruct selections as [|sel selections].
      { apply Forall2_nil_inv_r in Hall. apply groupby_nil in Hall.
        by destruct (Hne Hlevel). }
      exists sel. split; [apply elem_of_app; right; left|].
      destruct (Hsel sel) as [-> _]; [left|].
      rewrite Hflag. by apply bool_decide_eq_true_2.
  - intros sel r [Hold|Hnew]%elem_of_app Hr; [by eapply Hrows|].
    apply Hfrom. by apply (Hsel sel Hnew).
Qed.

Lemma sample_steps_selections_ok steps st st' processed :
  foldM (sample_step sample df) st steps = Ok st' →
  selections_ok df processed (sampled_dfs st) →
  selections_ok df (processed ++ steps.*2) (sampled_dfs st').
Proof.
  revert st processed.
  induction steps as [|step steps IH]; intros st processed; simpl.
  - intros [= <-]. by rewrite app_nil_r.
  - intros (st1 & Hstep & Hrest)%bind_Ok Hok.
    rewrite cons_middle, app_assoc. apply (IH st1); [done|].
    unfold sample_step in Hstep.
    destruct (taxa_levels !! step.1) as [level|]; [|done].
    by eapply sample_rule_selections_ok.
Qed.
End columns.

Lemma elem_of_drop_duplicate_rows l r : r ∈ drop_duplicate_rows l ↔ r ∈ l.
Proof.
  induction l as [|x l IH]; [done|]. cbn [drop_duplicate_rows].
  rewrite !elem_of_cons, list_elem_of_filter, IH.
  destruct (decide (r = x)); tauto.
Qed.

Lemma elem_of_concat_rows (dfs : list DataFrame) (r : Row) :
  r ∈ concat (rows <$> dfs) ↔ ∃ sel, sel ∈ dfs ∧ r ∈ rows sel.
Proof.
  induction dfs as [|d dfs IH].
  - split; [by intros ?%elem_of_nil|by intros (? & ?%elem_of_nil & _)].
  - rewrite fmap_cons. cbn [concat]. rewrite elem_of_app, IH. split.
    + intros [?|(sel & ? & ?)]; [exists d|exists sel];
        (split; [|done]); [left|by right].
    + intros (sel & [->|?]%elem_of_cons & ?); [by left|right; by exists sel].
Qed.

Lemma existsb_has_sampling_prob (dfs : list DataFrame) :
  existsb has_sampling_prob dfs = true ↔
  ∃ sel, sel ∈ dfs ∧ has_sampling_prob sel = true.
Proof.
  rewrite existsb_exists. by setoid_rewrite list_elem_of_In.
Qed.

Lemma pd_concat_Ok dfs out :
  pd_concat dfs = Ok out →
  out = mkDF (existsb has_sampling_prob dfs) (concat (rows <$> dfs)).
Proof. destruct dfs; [done|]. by intros [= <-]. Qed.

(** C7, as the code has it: the weight column stays on the selections of the
    rules that assign it.  For a table without the column, the table that is
    written out has the column exactly when the expanded scheme has a rule
    whose [sampling_level] is not species; and every row that is written out
    is a row of the table, changed at most in its ["sampling_prob"]. *)
Theorem output_columns_and_rows {RNG : Type}
    (sample : RNG → nat → bool → list Row → list Row * RNG)
    (df : DataFrame) (scheme : list (string * Params)) (seed : RNG)
    (out : DataFrame) :
  without_replacement sample →
  has_sampling_prob df = false →
  subsample_gtdb sample df scheme seed = Ok out →
  (has_sampling_prob out = true ↔
   ∃ taxa params, dict_get taxa (expand_all scheme) = Some params ∧
     sampling_level params ≠ "species") ∧
  (∀ r, r ∈ rows out → from_table df r).
Proof.
  intros Hsample Hdf. unfold subsample_gtdb. cbv zeta.
  intros (so & Hbuild & (so' & Hreorder & (st & Hrun &
    (sampled & Hconcat & [= <-])%bind_Ok)%bind_Ok)%bind_Ok)%bind_Ok.
  destruct (build_sampling_order_ok _ _ _ Hbuild) as (Hnodup & Hbound & _).
  rewrite reorder_Ok in Hreorder by done. injection Hreorder as <-.
  rewrite sample_all_flat in Hrun
    by (intros k; rewrite dict_keys_tabulate, sorted_reverse_Permutation;
        apply Hbound).
  apply (sample_steps_selections_ok sample Hsample df Hdf _ _ _ []) in Hrun
    as (Hcol & Hweighted & Hrows).
  2:{ split_and!; [by intros ? ?%elem_of_nil..|by intros ? ? ?%elem_of_nil]. }
  apply pd_concat_Ok in Hconcat as ->. cbn [drop_duplicates has_sampling_prob rows].
  rewrite app_nil_l in Hcol, Hweighted. split.
  - rewrite existsb_has_sampling_prob. split.
    + intros (sel & Hsel & Htrue).
      destruct (Hcol sel Hsel Htrue) as (s & Hs & Hlevel).
      apply list_elem_of_fmap in Hs as ([k s'] & -> & Hin).
      apply elem_of_processing_sequence, (in_order_reordered so) in Hin.
      destruct (build_sampling_order_sound _ _ _ _ _ Hbuild Hin)
        as (taxa & params & Hparams & ->).
      by exists taxa, params.
    + intros (taxa & params & Hparams & Hlevel).
      destruct (build_sampling_order_complete _ _ _ _ _ Hbuild) as [_ Hall].
      destruct (Hall taxa) as (params' & k & Hparams' & Hin).
      { apply dict_get_is_Some. by rewrite Hparams. }
      assert (params' = params) as -> by congruence.
      apply (Hweighted (rule_of taxa params)); [|done].
      apply list_elem_of_fmap. exists (k, rule_of taxa params). split; [done|].
      by apply elem_of_processing_sequence, (in_order_reordered so).
  - intros r (sel & Hsel & Hr)%elem_of_drop_duplicate_rows%elem_of_concat_rows.
    by eapply Hrows.
Qed.

Lemma output_columns_and_rows_witness :
  ∃ out,
    subsample_gtdb sample_head gtdb_small scheme_genus_by_genus tt = Ok out ∧
    (has_sampling_prob out = true ↔
     ∃ taxa params,
       dict_get taxa (expand_all scheme_genus_by_genus) = Some params ∧
       sampling_level params ≠ "species") ∧
    (∀ r, r ∈ rows out → from_table gtdb_small r).
Proof.
  eexists. split; [vm_compute; reflexivity|].
  apply (output_columns_and_rows sample_head gtdb_small scheme_genus_by_genus
           tt).
  - exact sample_head_without_replacement.
  - reflexivity.
  - vm_compute. reflexivity.
Defined.

(** * Further properties of the script *)

(** ** Errors of the validation loop (lines 85-102) *)

Lemma elem_of_taxa_levels level : level ∈ taxa_levels.
Proof. unfold taxa_levels. destruct level; repeat first [left|right]. Qed.

Lemma check_taxa_name_false taxa df :
  check_taxa_name taxa taxa_levels df = false ↔
  ∀ level, taxa ∉ column level df.
Proof.
  rewrite <-not_true_iff_false, check_taxa_name_true. split.
  - intros Hnone level Hin. apply Hnone. exists level. split; [|done].
    apply elem_of_taxa_levels.
  - intros Hnone (level & _ & Hin). by apply (Hnone level).
Qed.

Lemma index_from_None i name levels :
  index_from i name levels = None ↔
  ∀ level, level ∈ levels → rank_name level ≠ name.
Proof.
  revert i. induction levels as [|l levels IH]; intros i; simpl.
  - split; [|done]. by intros _ ? ?%elem_of_nil.
  - case_decide as Hl.
    + split; [done|]. intros Hall. destruct (Hall l); [left|done].
    + rewrite IH. split.
      * intros Hall level [->|?]%elem_of_cons; [done|by apply Hall].
      * intros Hall level ?. apply Hall. by right.
Qed.

Lemma taxa_levels_index_ValueError name :
  taxa_levels_index name = Err ValueError ↔
  ∀ level, rank_name level ≠ name.
Proof.
  unfold taxa_levels_index.
  destruct (index_from 0 name taxa_levels) as [i|] eqn:Hindex.
  - split; [done|]. intros Hnone.
    assert (index_from 0 name taxa_levels = None) as Hcontra; [|congruence].
    apply index_from_None. intros level _. apply Hnone.
  - split; [|done]. intros _ level.
    apply (proj1 (index_from_None _ _ _) Hindex), elem_of_taxa_levels.
Qed.

Lemma missing_taxon_aborts {RNG : Type}
    (sample : RNG → nat → bool → list Row → list Row * RNG)
    (df : DataFrame) (scheme : list (string * Params)) (seed : RNG)
    (taxa : string) :
  taxa ∈ dict_keys (expand_all scheme) →
  (∀ level, taxa ∉ column level df) →
  (∀ so, validate_rule df (expand_all scheme) so taxa
         = Err (SysExit (msg_not_present taxa))) ∧
  (∃ e, subsample_gtdb sample df scheme seed = Err e).
Proof.
  intros Hkey Hnone%check_taxa_name_false.
  assert (∀ so, validate_rule df (expand_all scheme) so taxa
                = Err (SysExit (msg_not_present taxa))) as Hrefuse.
  { intros so. unfold validate_rule. by rewrite Hnone. }
  split; [done|].
  destruct (foldM_raises (validate_rule df (expand_all scheme))
              (dict_keys (expand_all scheme)) taxa Hkey
              (λ so, ex_intro _ _ (Hrefuse so)) []) as [e He].
  exists e. unfold subsample_gtdb, build_sampling_order. by rewrite He.
Qed.

(** X1: a rule whose taxon occurs in no rank column of the table is refused
    with the exit "<taxon> is not present in GTDB", whatever its parameters,
    and the run aborts. *)
Theorem unknown_taxon_exits {RNG : Type}
    (sample : RNG → nat → bool → list Row → list Row * RNG)
    (df : DataFrame) (scheme : list (string * Params)) (seed : RNG)
    (taxa : string) :
  taxa ∈ dict_keys (expand_all scheme) →
  (∀ level, taxa ∉ column level df) →
  (∀ so, validate_rule df (expand_all scheme) so taxa
         = Err (SysExit (taxa ++ " is not present in GTDB")%string)) ∧
  (∃ e, subsample_gtdb sample df scheme seed = Err e).
Proof. apply missing_taxon_aborts. Qed.

Lemma unknown_taxon_exits_witness :
  ∃ e, subsample_gtdb sample_head gtdb_small scheme_unknown_taxon tt = Err e.
Proof.
  apply (unknown_taxon_exits sample_head gtdb_small scheme_unknown_taxon tt
           "Salmonella").
  - apply (bool_decide_unpack _). vm_compute. exact I.
  - intros level. apply (bool_decide_unpack _). destruct level; vm_compute;
      exact I.
Defined.

(** X2: a rule whose taxon is in the table but whose [sampling_level] is not
    one of the seven rank names raises [ValueError] at line 90, before the
    rank order is looked at, and the run aborts. *)
Theorem unknown_sampling_level_raises {RNG : Type}
    (sample : RNG → nat → bool → list Row → list Row * RNG)
    (df : DataFrame) (scheme : list (string * Params)) (seed : RNG)
    (taxa : string) (params : Params) (level : Rank) :
  dict_get taxa (expand_all scheme) = Some params →
  taxa ∈ column level df →
  (∀ l, rank_name l ≠ sampling_level params) →
  (∀ so, validate_rule df (expand_all scheme) so taxa = Err ValueError) ∧
  (∃ e, subsample_gtdb sample df scheme seed = Err e).
Proof.
  intros Hparams Hin Hlevel%taxa_levels_index_ValueError.
  assert (∀ so, validate_rule df (expand_all scheme) so taxa
                = Err ValueError) as Hraise.
  { intros so. unfold validate_rule.
    assert (check_taxa_name taxa taxa_levels df = true) as ->.
    { apply check_taxa_name_true. exists level. split; [|done].
      apply elem_of_taxa_levels. }
    by rewrite Hparams, Hlevel. }
  split; [done|].
  destruct (foldM_raises (validate_rule df (expand_all scheme))
              (dict_keys (expand_all scheme)) taxa)
    with (a := @nil (nat * list Sampling)) as [e He].
  - apply dict_get_is_Some. by rewrite Hparams.
  - intros so. eexists. apply Hraise.
  - exists e. unfold subsample_gtdb, build_sampling_order. by rewrite He.
Qed.

Lemma unknown_sampling_level_raises_witness :
  ∃ e, subsample_gtdb sample_head gtdb_small scheme_unknown_level tt = Err e.
Proof.
  apply (unknown_sampling_level_raises sample_head gtdb_small
           scheme_unknown_level tt "Bacteria" (mkParams "kingdom" 1) Domain).
  - reflexivity.
  - apply (bool_decide_unpack _). vm_compute. exact I.
  - intros l. destruct l; discriminate.
Defined.

(** X3: a scheme with the wildcard needs both domains in the table: when
    ["Bacteria"] or ["Archaea"] occurs in no rank column, the rule that the
    expansion creates for it is refused as not present and the run aborts. *)
Theorem wildcard_needs_both_domains {RNG : Type}
    (sample : RNG → nat → bool → list Row → list Row * RNG)
    (df : DataFrame) (scheme : list (string * Params)) (seed : RNG)
    (params : Params) (name : string) :
  dict_get "all" scheme = Some params →
  name = "Bacteria" ∨ name = "Archaea" →
  (∀ level, name ∉ column level df) →
  (∀ so, validate_rule df (expand_all scheme) so name
         = Err (SysExit (name ++ " is not present in GTDB")%string)) ∧
  (∃ e, subsample_gtdb sample df scheme seed = Err e).
Proof.
  intros Hall Hname. apply missing_taxon_aborts.
  apply dict_get_is_Some. unfold expand_all. rewrite Hall.
  destruct Hname as [-> | ->].
  - rewrite dict_get_set_ne by done. by rewrite dict_get_set_eq.
  - by rewrite dict_get_set_eq.
Qed.

Lemma wildcard_needs_both_domains_witness :
  ∃ e, subsample_gtdb sample_head gtdb_bacteria scheme_all tt = Err e.
Proof.
  apply (wildcard_needs_both_domains sample_head gtdb_bacteria scheme_all tt
           (mkParams "domain" 1) "Archaea").
  - reflexivity.
  - by right.
  - intros level. apply (bool_decide_unpack _).
    destruct level; vm_compute; exact I.
Defined.

Lemma validate_rule_Err_independent df scheme so so' taxa e :
  validate_rule df scheme so taxa = Err e →
  validate_rule df scheme so' taxa = Err e.
Proof.
  unfold validate_rule.
  destruct (check_taxa_name taxa taxa_levels df); [|done].
  destruct (dict_get taxa scheme) as [params|]; [|done].
  destruct (taxa_levels_index (sampling_level params)) as [si|]; [|done].
  simpl.
  destruct (get_taxa_level_index taxa taxa_levels df) as [ti|]; [|done].
  case_decide; [|done].
  by destruct (dict_get ti so).
Qed.

(** The first error of a loop whose body fails on an element whatever the
    state. *)
Lemma foldM_first_Err {A B : Type} (f : A → B → result A) l a e :
  (∀ a a' x e, f a x = Err e → f a' x = Err e) →
  foldM f a l = Err e ↔
  ∃ pre x post, l = pre ++ x :: post ∧
    Forall (λ y, ∀ a, is_ok (f a y)) pre ∧ ∀ a, f a x = Err e.
Proof.
  intros Hindep. split.
  - revert a. induction l as [|y l IH]; intros a; simpl; [done|].
    destruct (f a y) as [a1|e1] eqn:Hy; simpl.
    + intros (pre & x & post & -> & Hpre & Hx)%IH.
      exists (y :: pre), x, post. split_and!; [done| |done].
      constructor; [|done]. intros a'.
      destruct (f a' y) as [?|e'] eqn:Hy'; [done|].
      apply (Hindep _ a) in Hy'. congruence.
    + intros [= ->]. exists [], y, l. split_and!; [done|constructor|].
      intros a'. by apply (Hindep a).
  - intros (pre & x & post & -> & Hpre & Hx). revert a.
    induction Hpre as [|y pre Hy _ IH]; intros a; simpl.
    + by rewrite Hx.
    + specialize (Hy a). destruct (f a y); [apply IH|done].
Qed.

(** X4: validation stops at the first rule of the scheme, in the order of the
    scheme, that is not in order, and the error of the run is the error of
    that rule: the rules before it pass and the rules after it are not
    looked at. *)
Theorem validation_reports_first_offender (df : DataFrame)
    (scheme : list (string * Params)) (e : error) :
  build_sampling_order df scheme = Err e ↔
  ∃ pre taxa post, dict_keys scheme = pre ++ taxa :: post ∧
    Forall (λ t, ∀ so, is_ok (validate_rule df scheme so t)) pre ∧
    ∀ so, validate_rule df scheme so taxa = Err e.
Proof.
  apply foldM_first_Err. intros so so' taxa e'.
  apply validate_rule_Err_independent.
Qed.

Lemma validation_reports_first_offender_witness :
  build_sampling_order gtdb_small scheme_unknown_level = Err ValueError.
Proof.
  apply validation_reports_first_offender.
  exists ["Escherichia"], "Bacteria", []. split_and!.
  - reflexivity.
  - constructor; [|constructor]. intros so.
    rewrite (validate_rule_resolved gtdb_small scheme_unknown_level so
               "Escherichia" (mkParams "species" 1) 5 6) by reflexivity.
    rewrite decide_True by lia. exact I.
  - intros so. reflexivity.
Defined.

(** ** Errors of the sampling loop (lines 111-164) *)











Section growth.
Context {RNG : Type}.
Variable sample : RNG → nat → bool → list Row → list Row * RNG.




End growth.





(** ** What the run selects *)

Lemma groupby_partition level df :
  (g ← groupby level df; rows g.2) ≡ₚ rows df.
Proof.
  unfold groupby. rewrite list_fmap_bind.
  apply (bind_filter_partition (rank_field level)).
  - apply NoDup_group_keys.
  - intros r Hr. apply elem_of_group_keys. unfold column.
    by apply list_elem_of_fmap_2.
Qed.

Lemma submseteq_NoDup {A : Type} (l k : list A) :
  l ⊆+ k → NoDup k → NoDup l.
Proof.
  intros [k' Hk]%submseteq_Permutation Hnodup. rewrite Hk in Hnodup.
  by apply NoDup_app in Hnodup as [? _].
Qed.

Lemma concat_rows_bind (dfs : list DataFrame) :
  concat (rows <$> dfs) = sel ← dfs; rows sel.
Proof.
  induction dfs as [|d dfs IH]; [done|].
  rewrite fmap_cons, bind_cons. cbn [concat]. by rewrite IH.
Qed.

Lemma drop_duplicate_rows_NoDup l : NoDup (drop_duplicate_rows l).
Proof.
  induction l as [|r l IH]; simpl; constructor.
  - by intros [? _]%list_elem_of_filter.
  - by apply NoDup_filter.
Qed.

Lemma filter_other_rows (r : Row) (l : list Row) :
  r ∉ l → filter (λ r', r' ≠ r) l = l.
Proof.
  induction l as [|x l IH]; [done|].
  intros [Hne Hr]%not_elem_of_cons.
  rewrite filter_cons_True by done. f_equal. by apply IH.
Qed.

Lemma drop_duplicate_rows_id l : NoDup l → drop_duplicate_rows l = l.
Proof.
  induction 1 as [|r l Hr _ IH]; simpl; [done|].
  by rewrite IH, filter_other_rows.
Qed.

Section selection.
Context {RNG : Type}.
Variable sample : RNG → nat → bool → list Row → list Row * RNG.
Hypothesis sample_contract : without_replacement sample.

Lemma group_selected_submseteq n_taxa g sel :
  group_selected sample n_taxa g sel → rows sel ⊆+ rows g.
Proof.
  intros (_ & _ & Hsmall & Hlarge).
  destruct (decide (n_taxa < n_rows g)) as [Hlt|Hge].
  - by destruct (Hlarge Hlt) as (_ & Hsub & _).
  - by rewrite Hsmall by lia.
Qed.

Lemma selections_submseteq n_taxa (groups : list (string * DataFrame))
    selections :
  Forall2 (λ g sel, group_selected sample n_taxa g.2 sel) groups selections →
  (sel ← selections; rows sel) ⊆+ (g ← groups; rows g.2).
Proof.
  induction 1 as [|g sel groups selections Hg _ IH]; [done|].
  rewrite !bind_cons. apply submseteq_app; [|done].
  by eapply group_selected_submseteq.
Qed.

(** What a rule that completes leaves behind: its pool, appended to
    [used_data], and its selections, taken out of the pool. *)
Lemma sample_rule_inv df level st sampling st' :
  sample_rule sample df level st sampling = Ok st' →
  ∃ pool selections,
    (pool = candidate_pool df (used_data st) level sampling.1.1 ∨
     ∃ base, pool = mkDF true (weighted_rows base
               (candidate_pool df (used_data st) level sampling.1.1))) ∧
    used_data st' = used_data st ++ [pool] ∧
    sampled_dfs st' = sampled_dfs st ++ selections ∧
    (sel ← selections; rows sel) ⊆+ rows pool.
Proof.
  unfold sample_rule. cbv zeta.
  intros (pool & Hpool & (target & Htarget & [= <-])%bind_Ok)%bind_Ok.
  destruct (foldl_sample_group sample sample_contract sampling.2
              (groupby target pool) (sampled_dfs st, rng st))
    as (selections & Hsel & Hall).
  exists pool, selections. split_and!; [|done..|].
  - case_decide.
    + apply assign_weights_Ok in Hpool as (i & base & _ & _ & _ & ->).
      right. by exists base.
    + left. by injection Hpool.
  - rewrite <-(groupby_partition target pool).
    by eapply selections_submseteq.
Qed.

Lemma candidate_pool_accessions_NoDup df used level taxa :
  NoDup (accessions df) →
  NoDup (accessions (candidate_pool df used level taxa)).
Proof.
  intros Hdf. eapply sublist_NoDup; [exact Hdf|].
  unfold accessions, candidate_pool, drop_accessions, select_eq. cbn [rows].
  apply fmap_sublist. etrans; apply sublist_filter.
Qed.

Lemma pool_accessions df used level taxa pool :
  (pool = candidate_pool df used level taxa ∨
   ∃ base, pool = mkDF true (weighted_rows base
             (candidate_pool df used level taxa))) →
  accessions pool ≡ₚ accessions (candidate_pool df used level taxa).
Proof.
  intros [->|[base ->]]; [done|]. apply weighted_rows_accessions.
Qed.

Lemma sample_rule_unique df level st sampling st' :
  NoDup (accessions df) →
  sample_rule sample df level st sampling = Ok st' →
  NoDup (sel ← sampled_dfs st; accessions sel) →
  (∀ a, a ∈ (sel ← sampled_dfs st; accessions sel) →
        a ∈ (u ← used_data st; accessions u)) →
  NoDup (sel ← sampled_dfs st'; accessions sel) ∧
  (∀ a, a ∈ (sel ← sampled_dfs st'; accessions sel) →
        a ∈ (u ← used_data st'; accessions u)).
Proof.
  intros Hdf (pool & selections & Hpool & -> & -> & Hsub)%sample_rule_inv
    Hnodup Hused.
  apply pool_accessions in Hpool.
  assert ((sel ← selections; accessions sel) ⊆+ accessions pool) as Hnew.
  { unfold accessions. rewrite bind_fmap_out. by apply fmap_submseteq. }
  rewrite !bind_app. split.
  - apply NoDup_app. split_and!; [done| |].
    + intros a Hold Hin.
      eapply elem_of_submseteq in Hin; [|exact Hnew].
      rewrite Hpool in Hin.
      apply Hused, list_elem_of_bind in Hold as (u & Ha & Hu).
      by eapply candidate_pool_excludes.
    + eapply submseteq_NoDup; [exact Hnew|]. rewrite Hpool.
      by apply candidate_pool_accessions_NoDup.
  - intros a [Hold|Hin]%elem_of_app; apply elem_of_app; [left; by apply Hused|].
    right. rewrite bind_singleton. by eapply elem_of_submseteq.
Qed.

Lemma sample_steps_unique df steps st st' :
  NoDup (accessions df) →
  foldM (sample_step sample df) st steps = Ok st' →
  NoDup (sel ← sampled_dfs st; accessions sel) →
  (∀ a, a ∈ (sel ← sampled_dfs st; accessions sel) →
        a ∈ (u ← used_data st; accessions u)) →
  NoDup (sel ← sampled_dfs st'; accessions sel).
Proof.
  intros Hdf. revert st.
  induction steps as [|step steps IH]; intros st; simpl.
  - by intros [= <-].
  - intros (st1 & Hstep & Hrest)%bind_Ok Hnodup Hused.
    unfold sample_step in Hstep.
    destruct (taxa_levels !! step.1) as [level|]; [|done]. simpl in Hstep.
    destruct (sample_rule_unique df level st step.2 st1 Hdf Hstep Hnodup Hused)
      as [Hnodup1 Hused1].
    by apply (IH st1).
Qed.
End selection.

(** X8: when the accessions of the table are distinct, no accession occurs
    twice in the table that is written out, and [drop_duplicates] (line 163)
    has nothing to remove: the rows of the output are the rows of the
    selections, concatenated as they are. *)
Theorem output_accessions_unique {RNG : Type}
    (sample : RNG → nat → bool → list Row → list Row * RNG)
    (df : DataFrame) (scheme : list (string * Params)) (seed : RNG)
    (out : DataFrame) :
  without_replacement sample →
  NoDup (accessions df) →
  subsample_gtdb sample df scheme seed = Ok out →
  NoDup (accessions out) ∧
  ∃ selections,
    run_selections sample df scheme seed = Ok selections ∧
    rows out = concat (rows <$> selections).
Proof.
  intros Hsample Hdf. unfold subsample_gtdb, run_selections. cbv zeta.
  intros (so & Hbuild & (so' & Hreorder & (st & Hrun &
    (sampled & Hconcat & [= <-])%bind_Ok)%bind_Ok)%bind_Ok)%bind_Ok.
  rewrite Hbuild. simpl. rewrite Hreorder. simpl. rewrite Hrun. simpl.
  assert (NoDup (sel ← sampled_dfs st; accessions sel)) as Hnodup.
  { destruct (build_sampling_order_ok _ _ _ Hbuild) as (Hkeys & Hbound & _).
    rewrite reorder_Ok in Hreorder by done. injection Hreorder as <-.
    rewrite sample_all_flat in Hrun
      by (intros k; rewrite dict_keys_tabulate, sorted_reverse_Permutation;
          apply Hbound).
    eapply (sample_steps_unique sample Hsample df _ _ _ Hdf Hrun).
    - constructor.
    - by intros a ?%elem_of_nil. }
  apply pd_concat_Ok in Hconcat as ->.
  assert (NoDup (accession <$> concat (rows <$> sampled_dfs st))) as Hacc.
  { rewrite concat_rows_bind, <-bind_fmap_out. exact Hnodup. }
  unfold accessions, drop_duplicates. cbn [rows].
  rewrite drop_duplicate_rows_id by by eapply NoDup_fmap_1.
  split; [done|]. by exists (sampled_dfs st).
Qed.

Lemma output_accessions_unique_witness :
  ∃ out,
    subsample_gtdb sample_head gtdb_small scheme_genus_by_species tt = Ok out ∧
    NoDup (accessions out).
Proof.
  eexists. split; [vm_compute; reflexivity|].
  apply (output_accessions_unique sample_head gtdb_small
           scheme_genus_by_species tt).
  - exact sample_head_without_replacement.
  - apply (bool_decide_unpack _). vm_compute. exact I.
  - vm_compute. reflexivity.
Defined.

Lemma rank_field_with_sampling_prob level p r :
  rank_field level (with_sampling_prob p r) = rank_field level r.
Proof. by destruct level. Qed.

Lemma pool_rows_match df used level taxa pool r :
  (pool = candidate_pool df used level taxa ∨
   ∃ base, pool = mkDF true (weighted_rows base
             (candidate_pool df used level taxa))) →
  r ∈ rows pool → rank_field level r = taxa.
Proof.
  intros [->|[base ->]].
  - by intros [_ ?]%candidate_pool_matches.
  - cbn [rows]. rewrite weighted_rows_Permutation.
    intros (r0 & -> & [_ ?]%candidate_pool_matches)%list_elem_of_fmap.
    by rewrite rank_field_with_sampling_prob.
Qed.

Section matching.
Context {RNG : Type}.
Variable sample : RNG → nat → bool → list Row → list Row * RNG.
Hypothesis sample_contract : without_replacement sample.

Lemma sample_steps_match df steps st st' processed :
  foldM (sample_step sample df) st steps = Ok st' →
  (∀ sel r, sel ∈ sampled_dfs st → r ∈ rows sel →
     ∃ step, step ∈ processed ∧ step_matches step r) →
  ∀ sel r, sel ∈ sampled_dfs st' → r ∈ rows sel →
    ∃ step, step ∈ processed ++ steps ∧ step_matches step r.
Proof.
  revert st processed.
  induction steps as [|step steps IH]; intros st processed; simpl.
  - intros [= <-]. by rewrite app_nil_r.
  - intros (st1 & Hstep & Hrest)%bind_Ok Hold.
    rewrite cons_middle, app_assoc. apply (IH st1); [done|].
    unfold sample_step in Hstep.
    destruct (taxa_levels !! step.1) as [level|] eqn:Hlevel; [|done].
    simpl in Hstep.
    apply (sample_rule_inv sample sample_contract) in Hstep
      as (pool & selections & Hpool & _ & -> & Hsub).
    intros sel r [Hsel|Hsel]%elem_of_app Hr.
    + destruct (Hold sel r Hsel Hr) as (s & ? & ?).
      exists s. split; [|done]. apply elem_of_app. by left.
    + exists step. split; [apply elem_of_app; right; left|].
      unfold step_matches. rewrite Hlevel.
      eapply pool_rows_match; [exact Hpool|].
      eapply elem_of_submseteq; [|exact Hsub].
      apply list_elem_of_bind. by exists sel.
Qed.
End matching.

(** X9: every record that is written out belongs to the taxon of some rule
    of the expanded scheme, at the rank resolved for that taxon: the run
    never selects a record that no rule names. *)
Theorem output_rows_match_a_rule {RNG : Type}
    (sample : RNG → nat → bool → list Row → list Row * RNG)
    (df : DataFrame) (scheme : list (string * Params)) (seed : RNG)
    (out : DataFrame) (r : Row) :
  without_replacement sample →
  subsample_gtdb sample df scheme seed = Ok out →
  r ∈ rows out →
  ∃ taxa params k level,
    dict_get taxa (expand_all scheme) = Some params ∧
    get_taxa_level_index taxa taxa_levels df = Some k ∧
    taxa_levels !! k = Some level ∧
    rank_field level r = taxa.
Proof.
  intros Hsample. unfold subsample_gtdb. cbv zeta.
  intros (so & Hbuild & (so' & Hreorder & (st & Hrun &
    (sampled & Hconcat & [= <-])%bind_Ok)%bind_Ok)%bind_Ok)%bind_Ok.
  destruct (build_sampling_order_ok _ _ _ Hbuild) as (Hnodup & Hbound & Hrank).
  rewrite reorder_Ok in Hreorder by done. injection Hreorder as <-.
  rewrite sample_all_flat in Hrun
    by (intros k; rewrite dict_keys_tabulate, sorted_reverse_Permutation;
        apply Hbound).
  apply pd_concat_Ok in Hconcat as ->. cbn [drop_duplicates rows].
  intros (sel & Hsel & Hr)%elem_of_drop_duplicate_rows%elem_of_concat_rows.
  destruct (sample_steps_match sample Hsample df _ _ _ [] Hrun) with sel r
    as ([k rule] & Hin & Hmatch); [by intros ? ? ?%elem_of_nil|done..|].
  rewrite app_nil_l in Hin.
  apply elem_of_processing_sequence, (in_order_reordered so) in Hin.
  destruct (build_sampling_order_sound _ _ _ _ _ Hbuild Hin)
    as (taxa & params & Hparams & ->).
  unfold step_matches in Hmatch. cbn [fst snd] in Hmatch.
  destruct (taxa_levels !! k) as [level|] eqn:Hlevel; [|done].
  exists taxa, params, k, level. split_and!; [done| |done..].
  by apply (Hrank k (rule_of taxa params)).
Qed.

Lemma output_rows_match_a_rule_witness :
  ∃ taxa params k level,
    dict_get taxa (expand_all scheme_genus_by_species) = Some params ∧
    get_taxa_level_index taxa taxa_levels gtdb_small = Some k ∧
    taxa_levels !! k = Some level ∧
    rank_field level ecoli1 = taxa.
Proof.
  apply (output_rows_match_a_rule sample_head gtdb_small
           scheme_genus_by_species tt (mkDF false [ecoli1; efergusonii])).
  - exact sample_head_without_replacement.
  - vm_compute. reflexivity.
  - left.
Defined.

(** ** Which rule a record is offered to *)



Section offered.
Context {RNG : Type}.
Variable sample : RNG → nat → bool → list Row → list Row * RNG.


End offered.



(** ** Strings: splitting and removing (lines 47-57, 72-73) *)

Lemma str_split_nonempty sep s : str_split sep s ≠ [].
Proof.
  destruct s as [|c s]; simpl; [done|].
  case_decide; [done|]. by destruct (str_split sep s).
Qed.

Lemma str_join_cons sep piece pieces :
  pieces ≠ [] →
  str_join sep (piece :: pieces)
  = (piece ++ String sep (str_join sep pieces))%string.
Proof. by destruct pieces. Qed.

Lemma str_join_split sep s : str_join sep (str_split sep s) = s.
Proof.
  induction s as [|c s IH]; [done|]. cbn [str_split].
  pose proof (str_split_nonempty sep s) as Hne.
  case_decide as Hc.
  - subst c. rewrite str_join_cons by done. by rewrite IH.
  - destruct (str_split sep s) as [|p ps]; [done|].
    rewrite <-IH. by destruct ps.
Qed.

Lemma append_nil (s : string) : ("" ++ s)%string = s.
Proof. reflexivity. Qed.

Lemma append_cons c (s1 s2 : string) :
  (String c s1 ++ s2)%string = String c (s1 ++ s2).
Proof. reflexivity. Qed.

Lemma str_split_append sep piece s :
  sep ∉ String.list_ascii_of_string piece →
  str_split sep (piece ++ String sep s)%string = piece :: str_split sep s.
Proof.
  induction piece as [|c piece IH]; intros Hsep.
  - rewrite append_nil. cbn [str_split]. by rewrite decide_True.
  - cbn [String.list_ascii_of_string] in Hsep.
    apply not_elem_of_cons in Hsep as [Hc Hsep].
    rewrite append_cons. cbn [str_split]. rewrite decide_False by done.
    by rewrite IH.
Qed.

Lemma str_split_single sep piece :
  sep ∉ String.list_ascii_of_string piece → str_split sep piece = [piece].
Proof.
  induction piece as [|c piece IH]; intros Hsep; [done|].
  cbn [String.list_ascii_of_string] in Hsep.
  apply not_elem_of_cons in Hsep as [Hc Hsep].
  cbn [str_split]. rewrite decide_False by done. by rewrite IH.
Qed.

Lemma str_split_join sep pieces :
  pieces ≠ [] →
  Forall (λ piece, sep ∉ String.list_ascii_of_string piece) pieces →
  str_split sep (str_join sep pieces) = pieces.
Proof.
  intros Hne Hall. induction Hall as [|p ps Hp Hps IH]; [done|].
  destruct ps as [|p' ps].
  - by apply str_split_single.
  - rewrite str_join_cons, str_split_append by done.
    f_equal. by apply IH.
Qed.

Lemma prefix_append old s : String.prefix old (old ++ s) = true.
Proof.
  induction old as [|c old IH]; [by destruct s|].
  rewrite append_cons. cbn [String.prefix].
  destruct (ascii_dec c c); [done|congruence].
Qed.

Lemma str_remove_from_skip old pre s :
  str_remove_from (String.length pre) old (pre ++ s)
  = str_remove_from 0 old s.
Proof.
  induction pre as [|c pre IH]; [done|].
  rewrite append_cons. cbn [String.length str_remove_from]. apply IH.
Qed.

(** An occurrence at the start is removed. *)
Lemma str_remove_prefix old s :
  str_remove old (old ++ s) = str_remove old s.
Proof.
  unfold str_remove. case_decide as Hold; [by subst old|].
  destruct old as [|c old]; [done|].
  rewrite append_cons. cbn [str_remove_from].
  rewrite <-append_cons, prefix_append. cbn [String.length].
  rewrite Nat.sub_1_r. cbn [Nat.pred]. apply str_remove_from_skip.
Qed.

(** A string without an occurrence is left as it is. *)
Lemma str_remove_absent old s :
  str_in old s = false → str_remove old s = s.
Proof.
  unfold str_remove. case_decide; [done|].
  induction s as [|c s IH]; [done|]. cbn [str_in str_remove_from].
  intros [Hprefix Hin]%orb_false_iff. rewrite Hprefix. by rewrite IH.
Qed.

(** X11: the two accession prefixes.  An accession that carries ["GB_"] or
    ["RS_"] in front of a string with neither of the two in it is reduced to
    that string, and an accession with neither in it is left as it is. *)
Theorem strip_accession_prefix (a : string) :
  str_in "GB_" a = false →
  str_in "RS_" a = false →
  strip_accession ("GB_" ++ a) = a ∧
  strip_accession ("RS_" ++ a) = a ∧
  strip_accession a = a.
Proof.
  intros Hgb Hrs. unfold strip_accession. split_and!.
  - rewrite str_remove_prefix, (str_remove_absent "GB_") by done.
    by apply str_remove_absent.
  - rewrite (str_remove_absent "GB_").
    + rewrite str_remove_prefix. by apply str_remove_absent.
    + rewrite !append_cons, append_nil. cbn [str_in String.prefix].
      rewrite Hgb. by destruct a.
  - rewrite (str_remove_absent "GB_") by done. by apply str_remove_absent.
Qed.

Lemma strip_accession_prefix_witness :
  strip_accession ("GB_" ++ "GCA_000016525.1") = "GCA_000016525.1" ∧
  strip_accession ("RS_" ++ "GCA_000016525.1") = "GCA_000016525.1" ∧
  strip_accession "GCA_000016525.1" = "GCA_000016525.1".
Proof.
  apply (strip_accession_prefix "GCA_000016525.1"); vm_compute; reflexivity.
Defined.

(** ** Parsing the taxonomy (lines 46-57) *)

Lemma max_list_constant (n : nat) (l : list nat) :
  l ≠ [] → Forall (λ x, x = n) l → max_list l = n.
Proof.
  intros Hne Hall. induction Hall as [|x l -> _ IH]; [done|]. simpl.
  destruct l as [|y l]; [simpl; lia|]. rewrite IH by done. lia.
Qed.

Lemma max_list_eq (n : nat) (l : list nat) :
  n ≠ 0 → max_list l = n ↔ n ∈ l ∧ Forall (λ x, x ≤ n) l.
Proof.
  intros Hn. split.
  - intros <-. split.
    + apply max_list_elem_of. by intros ->.
    + apply Forall_forall. intros x. apply max_list_elem_of_le.
  - intros [Hin Hall]. apply Nat.le_antisymm.
    + clear Hin. induction Hall as [|x l Hx _ IH]; simpl; lia.
    + by apply max_list_elem_of_le.
Qed.

Lemma n_columns_split_expand (col : list string) :
  n_columns (split_expand col)
  = max_list (length <$> (str_split ";"%char <$> col)).
Proof.
  unfold n_columns, split_expand. cbv zeta.
  generalize (str_split ";"%char <$> col) as pieces. intros pieces.
  set (width := max_list (length <$> pieces)).
  destruct (decide (pieces = [])) as [->|Hne]; [done|].
  apply max_list_constant; [by destruct pieces|].
  rewrite <-list_fmap_compose. apply Forall_fmap, Forall_forall.
  intros ps' Hps'. simpl. rewrite length_app, length_fmap, length_replicate.
  assert (length ps' ≤ width); [|lia].
  apply max_list_elem_of_le. by apply list_elem_of_fmap_2.
Qed.

Lemma parse_taxonomy_width (raw : list RawRow) :
  n_columns (split_expand (gtdb_taxonomy <$> raw))
  = max_list (n_fields <$> raw).
Proof.
  rewrite n_columns_split_expand. f_equal.
  by rewrite <-!list_fmap_compose.
Qed.

Lemma parse_taxonomy_outcome (raw : list RawRow) :
  if decide (max_list (n_fields <$> raw) = 7)
  then is_ok (parse_taxonomy raw)
  else parse_taxonomy raw = Err ValueError.
Proof.
  unfold parse_taxonomy. cbv zeta. rewrite parse_taxonomy_width.
  change (length taxa_levels) with 7.
  destruct (decide (max_list (n_fields <$> raw) = 7)); done.
Qed.

(** X12: the load goes through exactly when the longest taxonomy string of
    the raw table has seven fields, that is when some row has seven fields
    and none has more; otherwise it raises [ValueError] (line 47), whatever
    the options: a row with too many fields aborts the load even if the
    quality filter would have dropped it, and so does an empty table. *)
Theorem load_needs_seven_fields (args : Args) (raw : list RawRow) :
  (is_ok (load_table args raw) ↔
   (∃ r, r ∈ raw ∧ n_fields r = 7) ∧ ∀ r, r ∈ raw → n_fields r ≤ 7) ∧
  (¬ is_ok (load_table args raw) → load_table args raw = Err ValueError).
Proof.
  pose proof (parse_taxonomy_outcome raw) as Hparse.
  assert (max_list (n_fields <$> raw) = 7 ↔
          (∃ r, r ∈ raw ∧ n_fields r = 7) ∧ ∀ r, r ∈ raw → n_fields r ≤ 7)
    as Hwidth.
  { rewrite max_list_eq by done. rewrite list_elem_of_fmap, Forall_fmap,
      Forall_forall. split.
    - intros [(r & ? & ?) ?]. split; [by exists r|done].
    - intros [(r & ? & ?) ?]. split; [by exists r|done]. }
  unfold load_table. case_decide as Hmax.
  - destruct (parse_taxonomy raw) as [parsed|]; [|done]. simpl.
    split; [|done]. split; [intros _; by apply Hwidth|done].
  - rewrite Hparse. simpl. split; [|done].
    split; [done|]. intros Hfields. by apply Hmax, Hwidth.
Qed.

Lemma load_needs_seven_fields_witness :
  load_table default_args [raw_ecoli; raw_long] = Err ValueError.
Proof.
  apply (load_needs_seven_fields default_args [raw_ecoli; raw_long]).
  vm_compute. tauto.
Defined.

Lemma parse_taxonomy_Ok (raw : list RawRow) (parsed : list ParsedRow) :
  parse_taxonomy raw = Ok parsed →
  max_list (n_fields <$> raw) = 7 ∧
  parsed
  = (λ r, mkParsed r
            (zip_with (λ old cell, str_remove old <$> cell) rank_prefixes
               ((Some <$> str_split ";"%char (gtdb_taxonomy r))
                  ++ replicate (7 - n_fields r) None))) <$> raw.
Proof.
  unfold parse_taxonomy. cbv zeta. rewrite parse_taxonomy_width.
  change (length taxa_levels) with 7.
  case_decide as Hwidth; [|done]. intros [= <-]. split; [done|].
  unfold split_expand. cbv zeta.
  replace (max_list (length <$> (str_split ";"%char
             <$> (gtdb_taxonomy <$> raw)))) with 7
    by (rewrite <-Hwidth; f_equal; by rewrite <-!list_fmap_compose).
  rewrite <-!list_fmap_compose, zip_with_fmap_r, zip_with_diag.
  done.
Qed.

Lemma padded_lookup {A : Type} (l : list A) (n j : nat) :
  length l ≤ n → j < n →
  ((Some <$> l) ++ replicate (n - length l) None) !! j = Some (l !! j).
Proof.
  intros Hlen Hj. destruct (decide (j < length l)) as [Hlt|Hge].
  - rewrite lookup_app_l by by rewrite length_fmap.
    rewrite list_lookup_fmap.
    by destruct (lookup_lt_is_Some_2 l j Hlt) as [x ->].
  - rewrite lookup_app_r by (rewrite length_fmap; lia).
    rewrite lookup_replicate_2 by (rewrite length_fmap; lia).
    rewrite lookup_ge_None_2; [done|lia].
Qed.

(** X13: when the load goes through, the row at each position keeps its raw
    columns, and its cell in the rank column [j] is field [j] of its
    taxonomy string without the prefix of that rank; when the string has no
    field [j] the cell has no value, and this is not an error. *)
Theorem parsed_cells (raw : list RawRow) (parsed : list ParsedRow)
    (i j : nat) (r : RawRow) (old : string) :
  parse_taxonomy raw = Ok parsed →
  raw !! i = Some r →
  rank_prefixes !! j = Some old →
  ∃ p, parsed !! i = Some p ∧ source p = r ∧
    length (rank_cells p) = 7 ∧
    rank_cells p !! j
    = Some (str_remove old <$> str_split ";"%char (gtdb_taxonomy r) !! j).
Proof.
  intros [Hwidth ->]%parse_taxonomy_Ok Hr Hold.
  eexists. rewrite list_lookup_fmap, Hr. split; [done|]. cbn [source rank_cells].
  assert (n_fields r ≤ 7) as Hfields.
  { rewrite <-Hwidth. apply max_list_elem_of_le, list_elem_of_fmap_2.
    by eapply list_elem_of_lookup_2. }
  assert (j < 7) as Hj by by apply lookup_lt_Some in Hold.
  split_and!; [done| |].
  - rewrite length_zip_with, length_app, length_fmap, length_replicate.
    fold (n_fields r). cbn [rank_prefixes length]. lia.
  - rewrite lookup_zip_with, Hold. simpl.
    unfold n_fields. rewrite padded_lookup by done. done.
Qed.

Lemma parsed_cells_witness :
  ∃ p, [mkParsed raw_ecoli
          [Some "Bacteria"; Some "Pseudomonadota"; Some "Gammaproteobacteria";
           Some "Enterobacterales"; Some "Enterobacteriaceae";
           Some "Escherichia"; Some "Escherichia coli"];
        mkParsed raw_short
          [Some "Bacteria"; Some "Pseudomonadota"; Some "Gammaproteobacteria";
           Some "Enterobacterales"; Some "Enterobacteriaceae";
           Some "Escherichia"; None]] !! 1 = Some p ∧
    source p = raw_short ∧
    length (rank_cells p) = 7 ∧
    rank_cells p !! 6
    = Some (str_remove "s__"
              <$> str_split ";"%char (gtdb_taxonomy raw_short) !! 6).
Proof.
  apply (parsed_cells [raw_ecoli; raw_short]); vm_compute; reflexivity.
Defined.

Lemma not_elem_of_chars_append sep (s1 s2 : string) :
  (sep ∉ String.list_ascii_of_string (s1 ++ s2)%string) ↔
  (sep ∉ String.list_ascii_of_string s1) ∧
  (sep ∉ String.list_ascii_of_string s2).
Proof.
  induction s1 as [|c s1 IH].
  - rewrite append_nil. cbn [String.list_ascii_of_string].
    split; [|by intros [_ ?]]. intros ?. split; [apply not_elem_of_nil|done].
  - rewrite append_cons. cbn [String.list_ascii_of_string].
    rewrite !not_elem_of_cons, IH. tauto.
Qed.

Lemma lineage_seven (names : list string) :
  lineage names →
  ∃ n1 n2 n3 n4 n5 n6 n7, names = [n1; n2; n3; n4; n5; n6; n7].
Proof.
  intros [_ Hpre]. unfold rank_prefixes in Hpre.
  repeat match goal with
         | H : Forall2 _ (_ :: _) _ |- _ =>
             apply Forall2_cons_inv_l in H as (? & ? & _ & H & ->)
         end.
  apply Forall2_nil_inv_l in Hpre as ->. by do 7 eexists.
Qed.

Lemma split_taxonomy_string (names : list string) :
  lineage names →
  str_split ";"%char (taxonomy_string names)
  = zip_with String.append rank_prefixes names.
Proof.
  intros Hlineage.
  destruct (lineage_seven names Hlineage)
    as (n1 & n2 & n3 & n4 & n5 & n6 & n7 & ->).
  destruct Hlineage as [Hsep _].
  unfold taxonomy_string. apply str_split_join; [done|].
  unfold rank_prefixes. cbn [zip_with].
  repeat match goal with
         | H : Forall _ (_ :: _) |- _ =>
             apply Forall_cons in H as [? H]
         end.
  repeat constructor; apply not_elem_of_chars_append;
    (split; [apply (bool_decide_unpack _); vm_compute; exact I|done]).
Qed.

(** X14: the parse undoes the way a lineage is written.  In a table that is
    not empty and in which every taxonomy string is a lineage of seven names
    written with the rank prefixes and semicolons, no name holding a
    semicolon or the prefix of its own rank, the load of the rank columns
    goes through, and the rank cells of every row are its seven names. *)
Theorem taxonomy_round_trip (raw : list RawRow) :
  raw ≠ [] →
  Forall (λ r, ∃ names, lineage names ∧
                 gtdb_taxonomy r = taxonomy_string names) raw →
  ∃ parsed, parse_taxonomy raw = Ok parsed ∧
    ∀ i r names, raw !! i = Some r → lineage names →
      gtdb_taxonomy r = taxonomy_string names →
      ∃ p, parsed !! i = Some p ∧ source p = r ∧
        rank_cells p = Some <$> names.
Proof.
  intros Hne Hall.
  assert (∀ r, r ∈ raw → n_fields r = 7) as Hfields.
  { intros r Hr. rewrite Forall_forall in Hall.
    destruct (Hall r Hr) as (names & Hlineage & Htax).
    unfold n_fields. rewrite Htax, (split_taxonomy_string _ Hlineage).
    destruct (lineage_seven names Hlineage)
      as (n1 & n2 & n3 & n4 & n5 & n6 & n7 & ->). done. }
  pose proof (parse_taxonomy_outcome raw) as Hparse.
  rewrite decide_True in Hparse.
  2:{ apply max_list_constant; [by destruct raw|].
      apply Forall_fmap, Forall_forall. intros r. apply Hfields. }
  destruct (parse_taxonomy raw) as [parsed|] eqn:Hparsed; [|done].
  exists parsed. split; [done|]. intros i r names Hr Hlineage Htax.
  apply parse_taxonomy_Ok in Hparsed as [_ ->].
  eexists. rewrite list_lookup_fmap, Hr. split; [done|]. split; [done|].
  cbn [rank_cells].
  rewrite (Hfields r) by by eapply list_elem_of_lookup_2.
  rewrite Htax, (split_taxonomy_string _ Hlineage).
  destruct (lineage_seven names Hlineage)
    as (n1 & n2 & n3 & n4 & n5 & n6 & n7 & ->).
  destruct Hlineage as [_ Hpre]. unfold rank_prefixes in *.
  repeat match goal with
         | H : Forall2 _ (_ :: _) (_ :: _) |- _ =>
             apply Forall2_cons in H as [? H]
         end.
  cbn [zip_with fmap list_fmap app replicate Nat.sub option_fmap option_map].
  by rewrite !str_remove_prefix, !str_remove_absent.
Qed.

Lemma taxonomy_round_trip_witness :
  ∃ parsed, parse_taxonomy [raw_ecoli; raw_msmithii] = Ok parsed ∧
    ∀ i r names, [raw_ecoli; raw_msmithii] !! i = Some r → lineage names →
      gtdb_taxonomy r = taxonomy_string names →
      ∃ p, parsed !! i = Some p ∧ source p = r ∧
        rank_cells p = Some <$> names.
Proof.
  apply taxonomy_round_trip; [discriminate|].
  repeat constructor.
  - exists ["Bacteria"; "Pseudomonadota"; "Gammaproteobacteria";
            "Enterobacterales"; "Enterobacteriaceae"; "Escherichia";
            "Escherichia coli"].
    split; [|reflexivity]. split.
    + repeat constructor; apply (bool_decide_unpack _); vm_compute; exact I.
    + repeat constructor.
  - exists ["Archaea"; "Methanobacteriota"; "Methanobacteria";
            "Methanobacteriales"; "Methanobacteriaceae";
            "Methanobrevibacter"; "Methanobrevibacter smithii"].
    split; [|reflexivity]. split.
    + repeat constructor; apply (bool_decide_unpack _); vm_compute; exact I.
    + repeat constructor.
Defined.

(** ** The quality filter (lines 60-68) *)

Lemma filter_quality_passes (args : Args) (rows : list ParsedRow) :
  filter_quality args rows = filter (passes args) rows.
Proof.
  destruct args as [completeness contamination [|]];
    unfold filter_quality; cbn [arg_gtdb_representative].
  - rewrite list_filter_filter. apply list_filter_iff. intros r.
    unfold passes. cbn [arg_gtdb_representative]. tauto.
  - apply list_filter_iff. intros r.
    unfold passes. cbn [arg_gtdb_representative]. split; [|tauto].
    intros [? ?]. split_and!; [done..|]. discriminate.
Qed.

Lemma filter_Forall_id {A : Type} (P : A → Prop) `{∀ x, Decision (P x)}
    (l : list A) :
  Forall P l → filter P l = l.
Proof.
  induction 1 as [|x l Hx _ IH]; [done|].
  by rewrite filter_cons_True, IH.
Qed.

Lemma passes_mono (strict args : Args) (r : ParsedRow) :
  at_least_as_strict strict args → passes strict r → passes args r.
Proof.
  intros (Hcont & Hcomp & Hrep) (Hc & Hm & Hr). split_and!.
  - by eapply Qcle_trans.
  - by eapply Qcle_trans.
  - intros Hargs. by apply Hr, Hrep.
Qed.

(** X15: the quality filter is monotone and idempotent.  Filtering again
    with the same or stricter options gives what the stricter options alone
    give, and that is a sub-table of the first result, rows in their order:
    the filter never adds or reorders rows. *)
Theorem filter_quality_refines (strict args : Args)
    (rows : list ParsedRow) :
  at_least_as_strict strict args →
  filter_quality strict (filter_quality args rows)
  = filter_quality strict rows ∧
  filter_quality strict rows `sublist_of` filter_quality args rows ∧
  filter_quality args rows `sublist_of` rows ∧
  filter_quality args (filter_quality args rows) = filter_quality args rows.
Proof.
  intros Hstrict. rewrite !filter_quality_passes.
  assert (filter (passes strict) (filter (passes args) rows)
          = filter (passes strict) rows) as Hcompose.
  { rewrite list_filter_filter. apply list_filter_iff. intros r.
    split; [tauto|]. intros ?. split; [done|]. by eapply passes_mono. }
  split_and!.
  - done.
  - rewrite <-Hcompose. apply sublist_filter.
  - apply sublist_filter.
  - rewrite list_filter_filter. apply list_filter_iff. tauto.
Qed.

Lemma filter_quality_refines_witness :
  filter_quality strict_args
    (filter_quality default_args
       [mkParsed raw_ecoli []; mkParsed raw_msmithii []])
  = filter_quality strict_args
      [mkParsed raw_ecoli []; mkParsed raw_msmithii []].
Proof.
  apply (filter_quality_refines strict_args default_args).
  split_and!; [vm_compute; discriminate..|done].
Defined.

(** X16: with the default options the load keeps every row of a table whose
    quality columns are percentages: the rows of the loaded table are the
    parsed rows, one for one and in order, with their accessions stripped. *)
Theorem default_load_keeps_all (raw : list RawRow)
    (parsed : list ParsedRow) :
  Forall (λ r, (Qc_of_Z 0 ≤ checkm_completeness r)%Qc ∧
               (checkm_contamination r ≤ Qc_of_Z 100)%Qc) raw →
  parse_taxonomy raw = Ok parsed →
  load_table default_args raw = Ok (strip_row_accession <$> parsed) ∧
  length parsed = length raw ∧
  Forall2 (λ r p, source p = r) raw parsed.
Proof.
  intros Hall Hparse. unfold load_table. rewrite Hparse. simpl.
  apply parse_taxonomy_Ok in Hparse as [_ ->]. split_and!.
  - do 2 f_equal. rewrite filter_quality_passes.
    apply filter_Forall_id, Forall_fmap.
    eapply Forall_impl; [exact Hall|].
    intros r [Hcomp Hcont]. split_and!; [done..|discriminate].
  - by rewrite length_fmap.
  - apply Forall2_fmap_r, Forall_Forall2_diag, Forall_true. done.
Qed.

Lemma default_load_keeps_all_witness :
  ∃ parsed,
    parse_taxonomy [raw_ecoli; raw_msmithii] = Ok parsed ∧
    load_table default_args [raw_ecoli; raw_msmithii]
    = Ok (strip_row_accession <$> parsed).
Proof.
  eexists. split; [vm_compute; reflexivity|].
  apply (default_load_keeps_all [raw_ecoli; raw_msmithii]).
  - repeat constructor; vm_compute; discriminate.
  - vm_compute. reflexivity.
Defined.
